(** * The ID31 azimuthal-integration plugin: [DataCache] and [Integrate]

    A shallow embedding of [plugins/id31.py].  The bounded, recency-ordered
    cache [DataCache] is a pair of a Python list ([ordered]) and a Python
    dictionary ([dict]) together with the bound [max_size]; its methods are
    written in a small state-and-exception monad, one line of the model per
    statement of the source.  Python exceptions are values of [exn]; a method
    that raises keeps the mutations it made before raising.

    - [DataCache]: the methods of the cache, for one caller.
    - [Borg]: the class-level attribute dictionary all instances alias.
    - [Integrate]: the reuse of integrators in [setup] and the frame loop of
      [process].
    - [Concurrent]: the methods as threads that take and release the
      semaphore, and their interleavings. *)

From Stdlib Require Import ZArith QArith Lia.
From stdpp Require Import base tactics option list strings gmap.

Close Scope Q_scope.
Open Scope string_scope.
Open Scope list_scope.

(** ** Python values, exceptions and results *)

(** The exceptions the modelled code can raise. *)
Inductive exn : Type :=
  | KeyError
  | ValueError
  | IndexError
  | AttributeError
  | TypeError
  | RuntimeError.

Inductive result (A : Type) : Type :=
  | Ok (a : A)
  | Raise (e : exn).
Arguments Ok {A} a.
Arguments Raise {A} e.

(** A Python object reference: either the singleton [None] or an object of
    the carrier [V].  Equality on [V] stands for object identity ([is]). *)
Inductive pyval (V : Type) : Type :=
  | PyNone
  | PyObj (v : V).
Arguments PyNone {V}.
Arguments PyObj {V} v.

Definition is_not_None {V} (x : pyval V) : bool :=
  match x with PyNone => false | PyObj _ => true end.

#[export] Instance pyval_eq_dec {V} `{EqDecision V} : EqDecision (pyval V).
Proof. solve_decision. Defined.

(** [x is y] *)
Definition is_ {V} `{EqDecision V} (x y : pyval V) : bool :=
  bool_decide (x = y).

(** ** Python list primitives used by the cache *)

Section pylist.
Context {A : Type} `{EqDecision A}.

(** [l.index(x)]: position of the first element equal to [x]; the caller
    turns [None] into [ValueError]. *)
Fixpoint list_index (x : A) (l : list A) : option nat :=
  match l with
  | [] => None
  | y :: l' => if decide (y = x) then Some 0 else S <$> list_index x l'
  end.

(** [l.pop(i)] for a non-negative [i]: the element and the remaining list;
    [None] stands for [IndexError]. *)
Definition list_pop (i : nat) (l : list A) : option (A * list A) :=
  match l !! i with
  | Some x => Some (x, delete i l)
  | None => None
  end.

(** The list without the first occurrence of [x]. *)
Fixpoint remove_first (x : A) (l : list A) : list A :=
  match l with
  | [] => []
  | y :: l' => if decide (y = x) then l' else y :: remove_first x l'
  end.
End pylist.

(** ** The cache *)

Module DataCache.
Section cache.
Context {V : Type}.

(** The attributes set by [DataCache.__init__]; the semaphore [_sem] is a
    no-op for a single caller and is modelled in [Concurrent] below. *)
Record t : Type := mk {
  ordered : list string;
  dict : gmap string (pyval V);
  max_size : Z
}.

(** State of the cache, plus a result or an exception. *)
Definition M (A : Type) : Type := t → t * result A.

#[export] Instance M_ret : MRet M := λ A a c, (c, Ok a).
#[export] Instance M_bind : MBind M := λ A B f m c,
  match m c with
  | (c', Ok a) => f a c'
  | (c', Raise e) => (c', Raise e)
  end.

Definition raise {A} (e : exn) : M A := λ c, (c, Raise e).
Definition gets {A} (f : t → A) : M A := λ c, (c, Ok (f c)).
Definition set_ordered (o : list string) : M () :=
  λ c, (mk o (dict c) (max_size c), Ok ()).
Definition set_dict (d : gmap string (pyval V)) : M () :=
  λ c, (mk (ordered c) d (max_size c), Ok ()).
Definition when (b : bool) (m : M ()) : M () := if b then m else mret ().

(** [self.ordered.index(key)] *)
Definition ordered_index (key : string) : M nat :=
  o ← gets ordered;
  match list_index key o with
  | Some i => mret i
  | None => raise ValueError
  end.

(** [self.ordered.pop(index)] *)
Definition ordered_pop (index : nat) : M string :=
  o ← gets ordered;
  match list_pop index o with
  | Some (k, o') => set_ordered o';; mret k
  | None => raise IndexError
  end.

(** [self.ordered.append(key)] *)
Definition ordered_append (key : string) : M () :=
  o ← gets ordered; set_ordered (o ++ [key]).

(** [self.dict[key]] *)
Definition dict_getitem (key : string) : M (pyval V) :=
  d ← gets dict;
  match d !! key with
  | Some v => mret v
  | None => raise KeyError
  end.

(** [self.dict.pop(key)] *)
Definition dict_pop (key : string) : M (pyval V) :=
  d ← gets dict;
  match d !! key with
  | Some v => set_dict (delete key d);; mret v
  | None => raise KeyError
  end.

(** [DataCache.__setitem__] *)
Definition __setitem__ (key : string) (value : pyval V) : M () :=
  d ← gets dict;
  set_dict (<[key := value]> d);;
  o ← gets ordered;
  when (bool_decide (key ∈ o))
    (index ← ordered_index key;
     ordered_pop index;; mret ());;
  o ← gets ordered;
  m ← gets max_size;
  when (bool_decide (m < Z.of_nat (length o))%Z)
    (firstKey ← ordered_pop 0;
     dict_pop firstKey;; mret ());;
  ordered_append key.

(** [DataCache.__getitem__] *)
Definition __getitem__ (key : string) : M (pyval V) :=
  index ← ordered_index key;
  ordered_pop index;;
  ordered_append key;;
  dict_getitem key.

(** [DataCache.__contains__] *)
Definition __contains__ (key : string) (c : t) : bool :=
  bool_decide (is_Some (dict c !! key)).

(** [DataCache.__len__] *)
Definition __len__ (c : t) : nat := length (ordered c).

(** [DataCache.get]; falling off the end of the method returns [None]. *)
Definition get (key : string) (default : pyval V) : M (pyval V) :=
  o ← gets ordered;
  if bool_decide (key ∈ o) then __getitem__ key
  else if is_not_None default then
    __setitem__ key default;; mret default
  else mret PyNone.

(** [DataCache.keys]: a copy of the recency order. *)
Definition keys (c : t) : list string := ordered c.

(** [DataCache.pop]; any failure of [index] is re-raised as [KeyError]. *)
Definition pop (key : string) : M (pyval V) :=
  o ← gets ordered;
  match list_index key o with
  | None => raise KeyError
  | Some index =>
      ordered_pop index;;
      dict_pop key
  end.

(** The attributes after the first [DataCache.__init__]. *)
Definition init (max_size : Z) : t := mk [] ∅ max_size.

(** The calls a client makes, and the cache after a sequence of them,
    whether they return or raise. *)
Inductive call : Type :=
  | SetItem (key : string) (value : pyval V)
  | GetItem (key : string)
  | Get (key : string) (default : pyval V)
  | Pop (key : string).

Definition exec (x : call) (c : t) : t :=
  match x with
  | SetItem key value => (__setitem__ key value c).1
  | GetItem key => (__getitem__ key c).1
  | Get key default => (get key default c).1
  | Pop key => (pop key c).1
  end.

Definition execs (l : list call) (c : t) : t := foldl (λ c x, exec x c) c l.

(** One [cache[key] = value] per pair of the list, in its order. *)
Definition inserts (kvs : list (string * pyval V)) : list call :=
  (λ kv, SetItem kv.1 kv.2) <$> kvs.

(** The key a call is about. *)
Definition call_key (x : call) : string :=
  match x with
  | SetItem key _ | GetItem key | Get key _ | Pop key => key
  end.

(** [" '%s': %s," % (key, value)], with [str_value] for [str] of a value. *)
Definition repr_line (str_value : pyval V → string) (key : string)
    (value : pyval V) : string :=
  " '" +:+ key +:+ "': " +:+ str_value value +:+ ",".

(** The loop of [__repr__]: [out] grows by one line per key. *)
Fixpoint repr_loop (str_value : pyval V → string) (keys : list string)
    (out : list string) : M (list string) :=
  match keys with
  | [] => mret out
  | key :: keys' =>
      value ← dict_getitem key;
      repr_loop str_value keys' (out ++ [repr_line str_value key value])
  end.

(** [DataCache.__repr__]; [linesep] is [os.linesep]. *)
Definition __repr__ (str_value : pyval V → string) (linesep : string) :
    M string :=
  o ← gets ordered;
  out ← repr_loop str_value o ["{"];
  mret (String.concat linesep (out ++ ["}"])).

(** *** The methods in closed form

    One expression per method, equal to running the method
    ([DataCacheFacts.setitem_eq] and its siblings). *)

(** What one call of [__setitem__] does, in one expression. *)
Definition setitem_result (key : string) (value : pyval V) (c : t) : t * result () :=
  let d1 := <[key := value]> (dict c) in
  let o1 := remove_first key (ordered c) in
  if bool_decide (max_size c < Z.of_nat (length o1))%Z then
    match o1 with
    | [] => (mk [] d1 (max_size c), Raise IndexError)
    | firstKey :: o2 =>
        match d1 !! firstKey with
        | Some _ => (mk (o2 ++ [key]) (delete firstKey d1) (max_size c), Ok ())
        | None => (mk o2 d1 (max_size c), Raise KeyError)
        end
    end
  else (mk (o1 ++ [key]) d1 (max_size c), Ok ()).

(** The cache after [key] was moved to the tail of the recency order. *)
Definition touched (key : string) (c : t) : t :=
  mk (remove_first key (ordered c) ++ [key]) (dict c) (max_size c).

Definition getitem_result (key : string) (c : t) : t * result (pyval V) :=
  match list_index key (ordered c) with
  | None => (c, Raise ValueError)
  | Some _ =>
      match dict c !! key with
      | Some v => (touched key c, Ok v)
      | None => (touched key c, Raise KeyError)
      end
  end.

Definition pop_result (key : string) (c : t) : t * result (pyval V) :=
  match list_index key (ordered c) with
  | None => (c, Raise KeyError)
  | Some _ =>
      let o1 := remove_first key (ordered c) in
      match dict c !! key with
      | Some v => (mk o1 (delete key (dict c)) (max_size c), Ok v)
      | None => (mk o1 (dict c) (max_size c), Raise KeyError)
      end
  end.

Definition get_result (key : string) (default : pyval V) (c : t) :
    t * result (pyval V) :=
  if bool_decide (key ∈ ordered c) then getitem_result key c
  else if is_not_None default then
    match setitem_result key default c with
    | (c', Ok _) => (c', Ok default)
    | (c', Raise e) => (c', Raise e)
    end
  else (c, Ok PyNone).

(** The recency order lists every key of the mapping exactly once. *)
Record consistent (c : t) : Prop := {
  ordered_NoDup : NoDup (ordered c);
  ordered_length : length (ordered c) = size (dict c);
  ordered_keys : ∀ k, k ∈ ordered c ↔ is_Some (dict c !! k)
}.
End cache.
Arguments t V : clear implicits.
Arguments M V A : clear implicits.
End DataCache.


(** ** Notions used to state what the cache keeps *)

Module CacheNotions.
Section notions.
Context {V : Type}.

(** The pairs still cached after the insertions [kvs]. *)
Definition kept (m : Z) (kvs : list (string * pyval V)) :
    list (string * pyval V) :=
  drop (length kvs - (Z.to_nat m + 1)) kvs.

(** [k] holds [v] and at most [j] keys come after it in the order. *)
Definition recent (k : string) (v : pyval V) (j : nat)
    (c : DataCache.t V) : Prop :=
  DataCache.dict c !! k = Some v ∧
  ∃ pre post, DataCache.ordered c = pre ++ k :: post ∧ (length post ≤ j)%nat.

(** The last [n + 1] elements of a list. *)
Definition window {B} (n : nat) (l : list B) : list B :=
  drop (length l - (n + 1)) l.
End notions.

(** A cache of capacity two after three insertions: it holds three keys. *)
Definition three_keys : DataCache.t Z :=
  DataCache.execs
    [DataCache.SetItem "A" (PyObj 1%Z); DataCache.SetItem "B" (PyObj 2%Z);
     DataCache.SetItem "C" (PyObj 3%Z)]
    (DataCache.init 2).

(** A cache of capacity two after two insertions. *)
Definition two_keys : DataCache.t Z :=
  DataCache.execs
    [DataCache.SetItem "A" (PyObj 1%Z); DataCache.SetItem "B" (PyObj 2%Z)]
    (DataCache.init 2).
End CacheNotions.

(** ** The Borg: one attribute dictionary for every instance *)

Module Borg.
Section borg.
Context {V : Type}.

(** An attribute dictionary of a [DataCache] object: empty ([{}]), or
    holding the attributes assigned by [__init__]. *)
Definition attrs : Type := option (DataCache.t V).

(** The interpreter state the class touches: attribute dictionaries by
    address, and the class attribute [__data_initialized].  Address
    [shared_state] is the class attribute [__shared_state]. *)
Record process : Type := mk_process {
  heap : list attrs;
  data_initialized : bool
}.



(** An object: its identity and the address its [__dict__] is bound to. *)
Record instance : Type := mk_instance {
  id : nat;
  __dict__ : nat
}.

(** [self.ordered = []; self.dict = {}; self.max_size = max_size]:
    attribute writes go to the dictionary [self.__dict__] is bound to. *)
Definition set_attrs (self : instance) (c : DataCache.t V) (p : process) :
    process :=
  mk_process (<[__dict__ self := Some c]> (heap p)) (data_initialized p).


(** A method call [self.m(...)]: the method reads and writes the
    attributes found through [self.__dict__]. *)
Definition call {A} (self : instance) (m : DataCache.M V A) (p : process) :
    process * result A :=
  match heap p !! __dict__ self with
  | Some (Some c) => let '(c', r) := m c in (set_attrs self c' p, r)
  | _ => (p, Raise AttributeError)
  end.


End borg.
Arguments attrs V : clear implicits.
Arguments process V : clear implicits.
End Borg.

(** ** The plugin *)

(** A monitor value as the job input gives it: absent, an integer or a
    real number (a rational stands for a float). *)
Inductive monitor : Type :=
  | MNone
  | MInt (n : Z)
  | MFloat (q : Q).

(** Python truth value of a monitor: [None] and zero are false. *)
Definition truthy (m : monitor) : bool :=
  match m with
  | MNone => false
  | MInt n => negb (n =? 0)%Z
  | MFloat q => negb (Qeq_bool q 0)
  end.

(** What [log_error] is given: no output directory, the poni file does
    not exist, the image file does not exist, the monitor value is
    false. *)
Inductive warning : Type :=
  | MissingOutputDir
  | MissingPoni (ponifile : string)
  | MissingImage (fname : string)
  | FalsyMonitor (m : monitor) (fname : string).

(** The job input, a dictionary with the keys the docstring of the plugin
    lists and ["output_dir"]; [None] for a key that is not in it. *)
Record job_input : Type := mk_input {
  in_output_dir : option string;
  in_poni_file : option string;
  in_input_files : option (list string);
  in_monitor_values : option (list monitor);
  in_npt : option Z;
  in_unit : option string
}.

Module Integrate.
Section integrate.
(** The integrator objects live in a store; the address of an object is
    its identity.  [geometry] is what an integrator is built from. *)
Context {geometry : Type}.
(** [pyFAI.load(ponifile)]: the configuration read from a file. *)
Variable load : string → geometry.
(** [str(ai)] *)
Variable str : geometry → string.
(** [os.path.exists] *)
Variable path_exists : string → bool.
(** [os.path.abspath] *)
Variable abspath : string → string.
(** [os.path.join(dest_dir, splitext(basename(fname))[0] + ".dat")], for
    a directory [dest_dir] and a file name [fname]. *)
Variable destination : string → string → string.

Abbreviation addr := nat.

(** The attributes of the plugin, the store of integrator objects and the
    cache behind the class attribute [_ais].  An attribute that may be
    unbound or [None] is an option: [dest_dir] is [None] until [setup]
    binds it, and [npt] is [None] as long as the attribute does not
    exist.  The attribute [method] is left out: [__init__] binds it and
    nothing assigns it again. *)
Record state : Type := mk {
  objects : list geometry;
  _ais : DataCache.t addr;
  ai : pyval addr;
  dest_dir : option string;
  ntp : Z;
  npt : option Z;
  unit : string;
  input_files : list string;
  monitor_values : option (list monitor);
  output_files : list string;
  _logging : list warning
}.

Definition set_objects h s :=
  mk h (_ais s) (ai s) (dest_dir s) (ntp s) (npt s) (unit s) (input_files s)
    (monitor_values s) (output_files s) (_logging s).
Definition set__ais c s :=
  mk (objects s) c (ai s) (dest_dir s) (ntp s) (npt s) (unit s)
    (input_files s) (monitor_values s) (output_files s) (_logging s).
Definition set_ai a s :=
  mk (objects s) (_ais s) a (dest_dir s) (ntp s) (npt s) (unit s)
    (input_files s) (monitor_values s) (output_files s) (_logging s).
Definition set_dest_dir d s :=
  mk (objects s) (_ais s) (ai s) d (ntp s) (npt s) (unit s) (input_files s)
    (monitor_values s) (output_files s) (_logging s).
Definition set_npt n s :=
  mk (objects s) (_ais s) (ai s) (dest_dir s) (ntp s) n (unit s)
    (input_files s) (monitor_values s) (output_files s) (_logging s).
Definition set_unit u s :=
  mk (objects s) (_ais s) (ai s) (dest_dir s) (ntp s) (npt s) u
    (input_files s) (monitor_values s) (output_files s) (_logging s).
Definition set_input_files f s :=
  mk (objects s) (_ais s) (ai s) (dest_dir s) (ntp s) (npt s) (unit s) f
    (monitor_values s) (output_files s) (_logging s).
Definition set_monitor_values m s :=
  mk (objects s) (_ais s) (ai s) (dest_dir s) (ntp s) (npt s) (unit s)
    (input_files s) m (output_files s) (_logging s).
Definition set_output_files o s :=
  mk (objects s) (_ais s) (ai s) (dest_dir s) (ntp s) (npt s) (unit s)
    (input_files s) (monitor_values s) o (_logging s).

(** [Integrate.__init__], for the objects and the cache of the process:
    it assigns [self.ntp], and no attribute [npt]. *)
Definition __init__ (h : list geometry) (c : DataCache.t addr) : state :=
  mk h c PyNone None 1000 None "q_nm^-1" [] None [] [].

(** A new object: its address is the next free one. *)
Definition alloc (g : geometry) (h : list geometry) : addr * list geometry :=
  (length h, h ++ [g]).

(** [stored.__deepcopy__()]: a new object with the configuration of
    [stored]. *)
Definition deepcopy (stored : addr) (h : list geometry) :
    option (addr * list geometry) :=
  g ← h !! stored; Some (alloc g h).

(** Modelled from the spec: [Plugin.log_error] of the host is not part
    of the sources.  It records the message; with [do_raise=False] it
    returns, the error of a frame being logged and not fatal, and with
    [do_raise=True], the default, it raises, a missing configuration being
    fatal to the job. *)
Definition log_error (w : warning) (do_raise : bool) (s : state) :
    state * result () :=
  let s := mk (objects s) (_ais s) (ai s) (dest_dir s) (ntp s) (npt s)
              (unit s) (input_files s) (monitor_values s) (output_files s)
              (_logging s ++ [w]) in
  if do_raise then (s, Raise RuntimeError) else (s, Ok ()).

(** The last two statements of [setup]:
    [self.npt = int(self.input.get("npt", self.npt))] and
    [self.unit = self.input.get("unit", self.unit)].  The argument
    [self.npt] is evaluated before [get] is called, whether the key is in
    the input or not. *)
Definition read_parameters (input : job_input) (s : state) :
    state * result () :=
  match npt s with
  | None => (s, Raise AttributeError)
  | Some n =>
      let s := set_npt (Some (default n (in_npt input))) s in
      (set_unit (default (unit s) (in_unit input)) s, Ok ())
  end.


(** [Integrate.setup]; [input] is [self.input] once [Plugin.setup] of
    the host has put the job parameters into it.  The keys
    ["input_files"] and ["monitor_values"] are not looked up: the
    attributes [input_files] and [monitor_values] stay as they are.
    [pyFAI.load] is taken to succeed and the value under ["npt"] to be an
    integer. *)
Definition setup (input : job_input) (s : state) : state * result () :=
  (* if "output_dir" not in self.input: self.log_error(...) *)
  match in_output_dir input with
  | None => log_error MissingOutputDir true s
  | Some output_dir =>
      (* self.dest_dir = os.path.abspath(self.input["output_dir"]) *)
      let s := set_dest_dir (Some (abspath output_dir)) s in
      (* ponifile = self.input.get("poni_file", "") *)
      let ponifile := default "" (in_poni_file input) in
      if negb (path_exists ponifile) then
        log_error (MissingPoni ponifile) true s
      else
        (* ai = pyFAI.load(ponifile) *)
        let '(fresh, h) := alloc (load ponifile) (objects s) in
        let s := set_objects h s in
        (* stored = self._ais.get(str(ai), ai) *)
        match DataCache.get (str (load ponifile)) (PyObj fresh) (_ais s) with
        | (c, Raise e) => (set__ais c s, Raise e)
        | (c, Ok stored) =>
            let s := set__ais c s in
            if is_ stored (PyObj fresh) then
              (* self.ai = stored *)
              read_parameters input (set_ai stored s)
            else
              (* self.ai = stored.__deepcopy__() *)
              match stored with
              | PyNone => (s, Raise AttributeError)
              | PyObj old =>
                  match deepcopy old (objects s) with
                  | Some (copy, h) =>
                      read_parameters input
                        (set_ai (PyObj copy) (set_objects h s))
                  | None => (s, Raise AttributeError) (* no such object *)
                  end
              end
        end
  end.

(** What the integration of a frame needs, in the order the statements
    read it: [self.dest_dir] for the output path ([os.path.join] raises
    TypeError on [None]), [self.ai] for its method [integrate1d], and
    [self.npt] for the argument [npt].  Decoding the image and the
    integration itself are taken to succeed. *)
Definition integration (s : state) : result string :=
  match dest_dir s with
  | None => Raise TypeError
  | Some dir =>
      match ai s with
      | PyNone => Raise AttributeError
      | PyObj _ =>
          match npt s with
          | None => Raise AttributeError
          | Some _ => Ok dir
          end
      end
  end.

(** The body of the loop of [process] for one pair of [zip]. *)
Definition frame (monitor_fname : monitor * string) (s : state) :
    state * result () :=
  let '(monitor, fname) := monitor_fname in
  if negb (path_exists fname) then
    log_error (MissingImage fname) false s
  else if negb (truthy monitor) then
    log_error (FalsyMonitor monitor fname) false s
  else
    match integration s with
    | Raise e => (s, Raise e)
    | Ok dir =>
        (* self.output_files.append(destination) *)
        (set_output_files (output_files s ++ [destination dir fname]) s, Ok ())
    end.

Fixpoint frames (l : list (monitor * string)) (s : state) :
    state * result () :=
  match l with
  | [] => (s, Ok ())
  | x :: l' =>
      match frame x s with
      | (s', Ok _) => frames l' s'
      | (s', Raise e) => (s', Raise e)
      end
  end.

(** [Integrate.process] *)
Definition process (s : state) : state * result () :=
  let s :=
    match monitor_values s with
    | None =>
        set_monitor_values
          (Some (replicate (length (input_files s)) (MInt 1))) s
    | Some _ => s
    end in
  frames (zip (default [] (monitor_values s)) (input_files s)) s.

(** [Integrate.teardown]: the value stored under ["output_files"]. *)
Definition teardown (s : state) : list string := output_files s.

(** A frame that passes the two tests of the loop. *)
Definition accepted (monitor_fname : monitor * string) : bool :=
  path_exists monitor_fname.2 && truthy monitor_fname.1.

(** The warning of a skipped frame. *)
Definition warning_of (monitor_fname : monitor * string) : warning :=
  if path_exists monitor_fname.2
  then FalsyMonitor monitor_fname.1 monitor_fname.2
  else MissingImage monitor_fname.2.

(** The pairs the loop of [process] runs over. *)
Definition pairs (s : state) : list (monitor * string) :=
  zip (default (replicate (length (input_files s)) (MInt 1))
         (monitor_values s))
      (input_files s).

(** What the loop adds for the pairs [l] when the integration of a frame
    gives [r]: the output paths, the warnings, and how the loop ends. *)
Fixpoint added (r : result string) (l : list (monitor * string)) :
    list string * list warning * result () :=
  match l with
  | [] => ([], [], Ok ())
  | x :: l' =>
      if accepted x then
        match r with
        | Ok dir =>
            let '(outs, warns, e) := added r l' in
            (destination dir x.2 :: outs, warns, e)
        | Raise e => ([], [], Raise e)
        end
      else
        let '(outs, warns, e) := added r l' in
        (outs, warning_of x :: warns, e)
  end.

End integrate.
Arguments state geometry : clear implicits.
End Integrate.

(** ** Several callers *)

(** The methods as code of a thread.  A thread takes one step at a time:
    it acquires or releases the semaphore [_sem], or it reads and writes
    the attributes of the cache ([Access f k]: the attributes [c] become
    [f c] and the thread goes on as [k c]).  The statements of one [with self._sem:]
    block form one step: no other thread can run the block of any method
    meanwhile.  Every interleaving of these steps is an interleaving of the
    program. *)
Module Concurrent.
Section concurrent.
Context {V : Type}.

Inductive thread (A : Type) : Type :=
  | Return (r : result A)
  | Acquire (k : thread A)
  | Release (k : thread A)
  | Access (f : DataCache.t V → DataCache.t V)
           (k : DataCache.t V → thread A).
Arguments Return {A} r.
Arguments Acquire {A} k.
Arguments Release {A} k.
Arguments Access {A} f k.

(** [m; k r]: the rest of the caller once the callee returned. *)
Fixpoint then_ {A B} (m : thread A) (k : A → thread B) : thread B :=
  match m with
  | Return (Ok a) => k a
  | Return (Raise e) => Return (Raise e)
  | Acquire m' => Acquire (then_ m' k)
  | Release m' => Release (then_ m' k)
  | Access f m' => Access f (λ c, then_ (m' c) k)
  end.

(** [with self._sem: body]; the semaphore is released when the body
    raises, too. *)
Definition with_sem {A} (body : DataCache.M V A) : thread A :=
  Acquire (Access (λ c, (body c).1) (λ c, Release (Return (body c).2))).

Definition __setitem__ (key : string) (value : pyval V) : thread () :=
  with_sem (DataCache.__setitem__ key value).

Definition __getitem__ (key : string) : thread (pyval V) :=
  with_sem (DataCache.__getitem__ key).

Definition pop (key : string) : thread (pyval V) :=
  with_sem (DataCache.pop key).

(** [DataCache.get]: the test [key in self.ordered] is made before any
    semaphore is taken. *)
Definition get (key : string) (default : pyval V) : thread (pyval V) :=
  Access (λ c, c) (λ c,
    if bool_decide (key ∈ DataCache.ordered c) then __getitem__ key
    else if is_not_None default then
      then_ (__setitem__ key default) (λ _, Return (Ok default))
    else Return (Ok PyNone)).

(** The shared attributes, the counter of the semaphore and the threads. *)
Record config (A : Type) : Type := mk {
  attrs : DataCache.t V;
  _sem : nat;
  threads : list (thread A)
}.
Arguments mk {A} attrs _sem threads.
Arguments attrs {A} c.
Arguments _sem {A} c.
Arguments threads {A} c.

(** [Semaphore()] starts at one. *)
Definition start {A} (c : DataCache.t V) (ths : list (thread A)) : config A :=
  mk c 1 ths.

(** Thread [i] takes its next step; [None] when it cannot: it has
    returned, or it waits for the semaphore. *)
Definition step {A} (i : nat) (cfg : config A) : option (config A) :=
  match threads cfg !! i with
  | Some (Acquire k) =>
      match _sem cfg with
      | O => None
      | S n => Some (mk (attrs cfg) n (<[i := k]> (threads cfg)))
      end
  | Some (Release k) =>
      Some (mk (attrs cfg) (S (_sem cfg)) (<[i := k]> (threads cfg)))
  | Some (Access f k) =>
      Some (mk (f (attrs cfg)) (_sem cfg) (<[i := k (attrs cfg)]> (threads cfg)))
  | Some (Return _) | None => None
  end.

(** The threads step in the order of the schedule. *)
Fixpoint run {A} (schedule : list nat) (cfg : config A) : option (config A) :=
  match schedule with
  | [] => Some cfg
  | i :: schedule' =>
      match step i cfg with
      | Some cfg' => run schedule' cfg'
      | None => None
      end
  end.

(** What each thread returned, [None] for one still running. *)
Definition returned {A} (th : thread A) : option (result A) :=
  match th with Return r => Some r | _ => None end.

Definition results {A} (cfg : config A) : list (option (result A)) :=
  returned <$> threads cfg.

(** The thread of a caller that makes one call; the statement
    [cache[key] = value] gives [None]. *)
Definition call_thread (x : DataCache.call (V := V)) : thread (pyval V) :=
  match x with
  | DataCache.SetItem key value =>
      then_ (__setitem__ key value) (λ _, Return (Ok PyNone))
  | DataCache.GetItem key => __getitem__ key
  | DataCache.Get key default => get key default
  | DataCache.Pop key => pop key
  end.

(** What the caller of [call_thread] gets when it is alone: the result of
    the method on the cache it finds. *)
Definition call_result (x : DataCache.call (V := V)) (c : DataCache.t V) :
    result (pyval V) :=
  match x with
  | DataCache.SetItem key value =>
      match (DataCache.__setitem__ key value c).2 with
      | Ok _ => Ok PyNone
      | Raise e => Raise e
      end
  | DataCache.GetItem key => (DataCache.__getitem__ key c).2
  | DataCache.Get key default => (DataCache.get key default c).2
  | DataCache.Pop key => (DataCache.pop key c).2
  end.

(** Where a thread stands in a method: about to release, inside the block,
    or waiting for the semaphore in front of the block. *)
Definition releases {A} (th : thread A) : Prop :=
  ∃ r, th = Release (Return r).

Definition waits {A} (th : thread A) : Prop :=
  ∃ f k, th = Acquire (Access f k) ∧ ∀ c, releases (k c).

(** [phase th b n]: [b] tells whether the thread holds the semaphore and
    [n] bounds the steps it still takes. *)
Inductive phase {A} : thread A → bool → nat → Prop :=
  | phase_returned r : phase (Return r) false 0
  | phase_releasing th : releases th → phase th true 1
  | phase_inside f k : (∀ c, releases (k c)) → phase (Access f k) true 2
  | phase_waiting th : waits th → phase th false 3
  | phase_testing f k :
      (∀ c, (∃ r, k c = Return r) ∨ waits (k c)) →
      phase (Access f k) false 4.

(** The number of holders and the steps left, for a list of phases. *)
Definition holders (ps : list (bool * nat)) : nat :=
  sum_list_with (λ p : bool * nat, if p.1 then 1 else 0) ps.

Definition steps_left (ps : list (bool * nat)) : nat :=
  sum_list_with (λ p : bool * nat, p.2) ps.
End concurrent.
Arguments thread V A : clear implicits.
Arguments config V A : clear implicits.
Arguments Return {V A} r.
Arguments Acquire {V A} k.
Arguments Release {V A} k.
Arguments Access {V A} f k.
Arguments attrs {V A} c.
Arguments _sem {V A} c.
Arguments threads {V A} c.
End Concurrent.

(** *** Two scenarios with two callers *)

(** The two threads of the race, the cache being empty. *)
Definition two_inserts : Concurrent.config Z (pyval Z) :=
  Concurrent.start (DataCache.init 10)
    [Concurrent.get "k" (PyObj 1%Z); Concurrent.get "k" (PyObj 2%Z)].

(** A lookup and a removal of the key ["k"], the cache holding it. *)
Definition lookup_and_pop : Concurrent.config Z (pyval Z) :=
  Concurrent.start
    (DataCache.__setitem__ "k" (PyObj 5%Z) (DataCache.init 10)).1
    [Concurrent.get "k" (PyObj 1%Z); Concurrent.pop "k"].

(** The value under ["k"] at the end of a run. *)
Definition stored_k (cfg : Concurrent.config Z (pyval Z)) : option (pyval Z) :=
  DataCache.dict (Concurrent.attrs cfg) !! "k".

(** *** A job and three states of the plugin *)

(** The files there are: every path but ["f2"]. *)
Definition on_disk (f : string) : bool := negb (String.eqb f "f2").

(** The output path of an image in a directory. *)
Definition dat (dir f : string) : string := dir +:+ "/" +:+ f +:+ ".dat".

(** A job: an output directory, the poni file ["a.poni"] and three
    images, of which the second is missing. *)
Definition a_poni : job_input :=
  mk_input (Some "out") (Some "a.poni") (Some ["f1"; "f2"; "f3"]) None
    None None.

(** The plugin after [__init__] and one setup for the job, the cache
    being empty before; the poni file is its own configuration and its
    own key. *)
Definition after_first_setup : Integrate.state string :=
  (Integrate.setup (λ p, p) (λ g, g) on_disk (λ p, p) a_poni
     (Integrate.__init__ [] (DataCache.init 10))).1.

(** A plugin whose cache holds [None] under ["a.poni"]. *)
Definition cached_None : Integrate.state string :=
  Integrate.__init__ []
    (DataCache.__setitem__ "a.poni" PyNone (DataCache.init 10)).1.

(** The plugin after the setup, with the three images of the job bound to
    [input_files] by hand. *)
Definition three_files : Integrate.state string :=
  Integrate.set_input_files ["f1"; "f2"; "f3"] after_first_setup.
(** * Properties *)

(** ** Python list primitives *)

Section pylist_facts.
Context {A : Type} `{EqDecision A}.
Implicit Types (x y : A) (l : list A).

Lemma list_index_None x l : list_index x l = None ↔ x ∉ l.
Proof.
  induction l as [|y l IH]; simpl.
  - split; [intros _; apply not_elem_of_nil | done].
  - rewrite not_elem_of_cons. destruct (decide (y = x)) as [->|Hne].
    + split; [done | intros [? _]; done].
    + rewrite fmap_None, IH. split; [by intros ? | by intros [_ ?]].
Qed.

Lemma list_index_is_Some x l : x ∈ l → is_Some (list_index x l).
Proof.
  intros Hx. destruct (list_index x l) eqn:E; [by eexists |].
  by apply list_index_None in E.
Qed.

Lemma list_index_Some x l i :
  list_index x l = Some i → l !! i = Some x ∧ delete i l = remove_first x l.
Proof.
  revert i. induction l as [|y l IH]; intros i; simpl; [done |].
  destruct (decide (y = x)) as [->|Hne].
  - by intros [= <-].
  - destruct (list_index x l) as [j|] eqn:E; simpl; [|done].
    intros [= <-]. destruct (IH j eq_refl) as [Hj Hd]. simpl.
    by rewrite Hd.
Qed.

Lemma list_pop_index x l i :
  list_index x l = Some i → list_pop i l = Some (x, remove_first x l).
Proof.
  intros H. apply list_index_Some in H as [Hl Hd].
  unfold list_pop. by rewrite Hl, Hd.
Qed.

Lemma remove_first_notin x l : x ∉ l → remove_first x l = l.
Proof.
  induction l as [|y l IH]; simpl; [done |].
  rewrite not_elem_of_cons. intros [Hne Hl].
  destruct (decide (y = x)); [congruence |]. by rewrite IH.
Qed.

Lemma remove_first_length x l :
  x ∈ l → S (length (remove_first x l)) = length l.
Proof.
  induction l as [|y l IH]; simpl.
  - by intros ?%elem_of_nil.
  - destruct (decide (y = x)) as [->|Hne]; [done |].
    rewrite elem_of_cons. intros [->| Hl]; [done |].
    simpl. by rewrite IH.
Qed.

Lemma remove_first_length_le x l :
  (length (remove_first x l) ≤ length l)%nat.
Proof.
  destruct (decide (x ∈ l)) as [Hx|Hx].
  - apply remove_first_length in Hx. lia.
  - by rewrite remove_first_notin.
Qed.

Lemma elem_of_remove_first x y l :
  NoDup l → y ∈ remove_first x l ↔ y ∈ l ∧ y ≠ x.
Proof.
  induction 1 as [|z l Hz Hnd IH]; simpl.
  - split; [by intros ?%elem_of_nil | by intros [?%elem_of_nil _]].
  - destruct (decide (z = x)) as [->|Hne].
    + rewrite elem_of_cons. split; [|intros [[?|?] ?]; done].
      intros Hy. split; [by right | by intros ->].
    + rewrite !elem_of_cons, IH. split.
      * intros [->|[? ?]]; [split; [by left | done] | split; [by right | done]].
      * intros [[->|?] ?]; [by left | by right].
Qed.

Lemma remove_first_NoDup x l : NoDup l → NoDup (remove_first x l).
Proof.
  induction 1 as [|z l Hz Hnd IH]; simpl; [constructor |].
  destruct (decide (z = x)); [done |].
  constructor; [|done]. rewrite elem_of_remove_first by done. tauto.
Qed.

Lemma remove_first_app_NoDup x l :
  NoDup l → NoDup (remove_first x l ++ [x]).
Proof.
  intros Hnd. apply NoDup_app. split; [by apply remove_first_NoDup |].
  split; [|apply NoDup_singleton].
  intros y Hy ->%list_elem_of_singleton.
  apply elem_of_remove_first in Hy; [tauto | done].
Qed.
End pylist_facts.

(** ** Closed forms of the cache methods *)

Module DataCacheFacts.
Import DataCache.
Section facts.
Context {V : Type}.
Implicit Types (c : t V) (key k : string) (value v : pyval V).

(** Unfolds the monad and the record projections, and nothing else. *)
Ltac run_cache :=
  cbv beta iota zeta delta
    [__setitem__ __getitem__ get pop when ordered_index ordered_pop
     dict_getitem dict_pop ordered_append mbind mret M_bind M_ret gets
     set_dict set_ordered raise ordered dict max_size].

Lemma setitem_eq key value c :
  __setitem__ key value c = setitem_result key value c.
Proof.
  destruct c as [o d m]. unfold setitem_result. run_cache.
  case_bool_decide as Hin.
  - destruct (list_index_is_Some _ _ Hin) as [i Hi]. rewrite Hi.
    rewrite (list_pop_index _ _ _ Hi).
    case_bool_decide; [|done].
    destruct (remove_first key o) as [|f o2]; [done |].
    cbv [list_pop]; simpl.
    by destruct (<[key:=value]> d !! f).
  - rewrite (remove_first_notin _ _ Hin).
    case_bool_decide; [|done].
    destruct o as [|f o2]; [done |].
    cbv [list_pop]; simpl.
    by destruct (<[key:=value]> d !! f).
Qed.

Lemma getitem_eq key c : __getitem__ key c = getitem_result key c.
Proof.
  destruct c as [o d m]. unfold getitem_result, touched. run_cache.
  destruct (list_index key o) as [i|] eqn:Hi; [|done].
  rewrite (list_pop_index _ _ _ Hi).
  by destruct (d !! key).
Qed.

Lemma pop_eq key c : pop key c = pop_result key c.
Proof.
  destruct c as [o d m]. unfold pop_result. run_cache.
  destruct (list_index key o) as [i|] eqn:Hi; [|done].
  rewrite (list_pop_index _ _ _ Hi).
  by destruct (d !! key).
Qed.

Lemma get_eq key default c : get key default c = get_result key default c.
Proof.
  unfold get_result. rewrite <- getitem_eq, <- setitem_eq.
  unfold get. unfold mbind at 1. unfold M_bind, gets.
  case_bool_decide; [done |].
  by destruct (is_not_None default).
Qed.
End facts.
End DataCacheFacts.

(** ** The invariant of the cache *)

Module DataCacheInv.
Import DataCache DataCacheFacts.
Section inv.
Context {V : Type}.
Implicit Types (c : t V) (key k : string) (value v : pyval V).

Lemma consistent_intro c :
  NoDup (ordered c) → (∀ k, k ∈ ordered c ↔ is_Some (dict c !! k)) →
  consistent c.
Proof.
  intros Hnd Hk. split; [done | | done].
  rewrite <- (size_list_to_set (C := gset string)) by done.
  rewrite <- (size_dom (D := gset string)). f_equal.
  apply set_eq. intros k.
  by rewrite elem_of_list_to_set, elem_of_dom.
Qed.

Lemma consistent_init m : consistent (init (V := V) m).
Proof.
  apply consistent_intro; simpl; [constructor |].
  intros k. rewrite lookup_empty. split.
  - by intros ?%elem_of_nil.
  - by intros [? ?].
Qed.

Lemma consistent_touched key c :
  key ∈ ordered c → consistent c → consistent (touched key c).
Proof.
  intros Hin [Hnd _ Hk]. apply consistent_intro; simpl.
  - by apply remove_first_app_NoDup.
  - intros k. rewrite <- Hk, elem_of_app, list_elem_of_singleton.
    rewrite elem_of_remove_first by done.
    destruct (decide (k = key)) as [->|]; tauto.
Qed.

(** With a non-negative bound [__setitem__] returns normally. *)
Lemma setitem_consistent key value c :
  (0 ≤ max_size c)%Z → consistent c →
  (__setitem__ key value c).2 = Ok () ∧
  consistent (__setitem__ key value c).1.
Proof.
  intros Hm [Hnd _ Hk]. rewrite setitem_eq. unfold setitem_result.
  pose proof (remove_first_NoDup key _ Hnd) as Hnd1.
  pose proof (λ k, elem_of_remove_first key k _ Hnd) as Hin1.
  case_bool_decide as Hlen.
  - destruct (remove_first key (ordered c)) as [|f o2] eqn:Ho1.
    { simpl in Hlen. lia. }
    assert (f ∈ ordered c ∧ f ≠ key) as [Hf Hfk].
    { apply Hin1. by left. }
    apply Hk in Hf as [vf Hvf].
    rewrite lookup_insert_ne, Hvf by done. split; [done |].
    apply NoDup_cons in Hnd1 as [Hf2 Hnd2].
    apply consistent_intro; simpl.
    + apply NoDup_app. split; [done |]. split; [|apply NoDup_singleton].
      intros k Hk2 ->%list_elem_of_singleton.
      assert (key ∈ f :: o2) as Hbad by by right.
      apply Hin1 in Hbad. tauto.
    + intros k. rewrite elem_of_app, list_elem_of_singleton.
      rewrite lookup_delete_is_Some, lookup_insert_is_Some, <- Hk.
      specialize (Hin1 k). rewrite elem_of_cons in Hin1.
      destruct (decide (k = key)) as [Hkk|Hkk], (decide (k = f)) as [Hkf|Hkf];
        subst; clear Hk; intuition congruence.
  - split; [done |]. apply consistent_intro; simpl.
    + by apply remove_first_app_NoDup.
    + intros k. rewrite elem_of_app, list_elem_of_singleton.
      rewrite lookup_insert_is_Some, <- Hk, Hin1.
      destruct (decide (k = key)); intuition congruence.
Qed.

Lemma getitem_consistent key c :
  consistent c → consistent (__getitem__ key c).1.
Proof.
  intros Hc. rewrite getitem_eq. unfold getitem_result.
  destruct (list_index key (ordered c)) as [i|] eqn:Hi; [|done].
  assert (key ∈ ordered c) as Hin.
  { destruct (decide (key ∈ ordered c)) as [|Hn]; [done |].
    apply list_index_None in Hn. congruence. }
  destruct (dict c !! key); by apply consistent_touched.
Qed.

Lemma pop_consistent key c :
  consistent c → consistent (pop key c).1.
Proof.
  intros Hc. rewrite pop_eq. unfold pop_result.
  destruct (list_index key (ordered c)) as [i|] eqn:Hi; [|done].
  assert (key ∈ ordered c) as Hin.
  { destruct (decide (key ∈ ordered c)) as [|Hn]; [done |].
    apply list_index_None in Hn. congruence. }
  destruct Hc as [Hnd _ Hk].
  destruct (Hk key) as [[v Hv] _]; [done |]. rewrite Hv.
  apply consistent_intro; simpl.
  - by apply remove_first_NoDup.
  - intros k. rewrite elem_of_remove_first, lookup_delete_is_Some, Hk by done.
    split; intros [? ?]; done.
Qed.

Lemma get_consistent key default c :
  (0 ≤ max_size c)%Z → consistent c → consistent (get key default c).1.
Proof.
  intros Hm Hc. rewrite get_eq. unfold get_result.
  case_bool_decide.
  - rewrite <- getitem_eq. by apply getitem_consistent.
  - destruct (is_not_None default); [|done].
    destruct (setitem_consistent key default c Hm Hc) as [Hr Hc'].
    rewrite setitem_eq in Hr, Hc'.
    by destruct (setitem_result key default c) as [c' [[]|e]].
Qed.

(** No method changes the bound. *)
Lemma setitem_max_size key value c :
  max_size (__setitem__ key value c).1 = max_size c.
Proof.
  rewrite setitem_eq. unfold setitem_result.
  case_bool_decide; [|done].
  destruct (remove_first key (ordered c)) as [|f o2]; [done |].
  by destruct (<[key:=value]> (dict c) !! f).
Qed.

Lemma getitem_max_size key c : max_size (__getitem__ key c).1 = max_size c.
Proof.
  rewrite getitem_eq. unfold getitem_result.
  destruct (list_index key (ordered c)); [|done].
  by destruct (dict c !! key).
Qed.

Lemma pop_max_size key c : max_size (pop key c).1 = max_size c.
Proof.
  rewrite pop_eq. unfold pop_result.
  destruct (list_index key (ordered c)); [|done].
  by destruct (dict c !! key).
Qed.

Lemma get_max_size key default c :
  max_size (get key default c).1 = max_size c.
Proof.
  rewrite get_eq. unfold get_result. case_bool_decide.
  - rewrite <- getitem_eq. apply getitem_max_size.
  - destruct (is_not_None default); [|done].
    pose proof (setitem_max_size key default c) as H'.
    rewrite setitem_eq in H'.
    by destruct (setitem_result key default c) as [c' [[]|e]].
Qed.
End inv.
End DataCacheInv.

(** ** What the methods return and store *)

Module DataCacheValues.
Import DataCache DataCacheFacts DataCacheInv.
Section values.
Context {V : Type}.
Implicit Types (c : t V) (key k : string) (value v w : pyval V).

Lemma elem_of_ordered_index key c :
  key ∈ ordered c ↔ is_Some (list_index key (ordered c)).
Proof.
  split; [apply list_index_is_Some |].
  intros [i Hi]. destruct (decide (key ∈ ordered c)) as [|Hn]; [done |].
  apply list_index_None in Hn. congruence.
Qed.

Lemma contains_ordered key c :
  consistent c → __contains__ key c = bool_decide (key ∈ ordered c).
Proof.
  intros Hc. unfold __contains__. apply bool_decide_ext.
  symmetry. apply (ordered_keys _ Hc).
Qed.

(** The stored value and the place of the key after [__setitem__]. *)
Lemma setitem_stored key value c :
  (0 ≤ max_size c)%Z → consistent c →
  dict (__setitem__ key value c).1 !! key = Some value ∧
  last (ordered (__setitem__ key value c).1) = Some key.
Proof.
  intros Hm [Hnd _ Hk]. rewrite setitem_eq. unfold setitem_result.
  case_bool_decide as Hlen.
  - destruct (remove_first key (ordered c)) as [|f o2] eqn:Ho1.
    { simpl in Hlen. lia. }
    assert (f ∈ ordered c ∧ f ≠ key) as [Hf Hfk].
    { apply (elem_of_remove_first key f _ Hnd). rewrite Ho1. by left. }
    apply Hk in Hf as [vf Hvf].
    rewrite lookup_insert_ne, Hvf by done. simpl.
    rewrite lookup_delete_ne, lookup_insert_eq, last_snoc by done. done.
  - simpl. by rewrite lookup_insert_eq, last_snoc.
Qed.

(** [__getitem__] of a key that is there. *)
Lemma getitem_present key v c :
  consistent c → dict c !! key = Some v →
  __getitem__ key c = (touched key c, Ok v).
Proof.
  intros Hc Hv. rewrite getitem_eq. unfold getitem_result.
  assert (key ∈ ordered c) as Hin by (apply (ordered_keys _ Hc); eauto).
  apply elem_of_ordered_index in Hin as [i ->]. by rewrite Hv.
Qed.

(** [__getitem__] of a key that is not there: the failure of
    [list.index] leaves the method. *)
Lemma getitem_absent key c :
  key ∉ ordered c → __getitem__ key c = (c, Raise ValueError).
Proof.
  intros Hn. rewrite getitem_eq. unfold getitem_result.
  apply list_index_None in Hn. by rewrite Hn.
Qed.

Lemma pop_absent key c : key ∉ ordered c → pop key c = (c, Raise KeyError).
Proof.
  intros Hn. rewrite pop_eq. unfold pop_result.
  apply list_index_None in Hn. by rewrite Hn.
Qed.

Lemma pop_present key v c :
  consistent c → dict c !! key = Some v →
  pop key c =
    (mk (remove_first key (ordered c)) (delete key (dict c)) (max_size c),
     Ok v) ∧
  (key ∉ remove_first key (ordered c)) ∧ delete key (dict c) !! key = None.
Proof.
  intros Hc Hv. rewrite pop_eq. unfold pop_result.
  assert (key ∈ ordered c) as Hin by (apply (ordered_keys _ Hc); eauto).
  apply elem_of_ordered_index in Hin as [i ->]. rewrite Hv.
  split; [done |]. split; [|apply lookup_delete_eq].
  rewrite elem_of_remove_first by apply (ordered_NoDup _ Hc). tauto.
Qed.

Lemma touched_length key c :
  key ∈ ordered c → length (ordered (touched key c)) = length (ordered c).
Proof.
  intros Hin. simpl. rewrite length_app. simpl.
  apply remove_first_length in Hin. lia.
Qed.

(** The cache never holds more than [max_size + 1] keys. *)
Lemma setitem_length_bound key value c :
  (Z.of_nat (length (ordered c)) ≤ max_size c + 1)%Z →
  (Z.of_nat (length (ordered (__setitem__ key value c).1))
     ≤ max_size (__setitem__ key value c).1 + 1)%Z.
Proof.
  intros Hb. rewrite setitem_eq. unfold setitem_result.
  pose proof (remove_first_length_le key (ordered c)) as Hle.
  case_bool_decide as Hlen.
  - destruct (remove_first key (ordered c)) as [|f o2] eqn:Ho1; simpl in *.
    + lia.
    + destruct (<[key:=value]> (dict c) !! f); simpl;
        rewrite ?length_app; simpl; lia.
  - simpl. rewrite length_app. simpl. lia.
Qed.
(** A new key in a cache that holds at most [max_size] keys: nothing is
    evicted. *)
Lemma setitem_new_key_fits key value c :
  key ∉ ordered c → (Z.of_nat (length (ordered c)) ≤ max_size c)%Z →
  __setitem__ key value c =
    (mk (ordered c ++ [key]) (<[key := value]> (dict c)) (max_size c), Ok ()).
Proof.
  intros Hn Hlen. rewrite setitem_eq. unfold setitem_result.
  rewrite remove_first_notin by done.
  by rewrite bool_decide_eq_false_2 by lia.
Qed.

(** A new key in a cache that holds more than [max_size] keys: the head of
    the recency order, and only it, leaves the order and the mapping. *)
Lemma setitem_new_key_evicts key value c firstKey o :
  consistent c → key ∉ ordered c → ordered c = firstKey :: o →
  (max_size c < Z.of_nat (length (ordered c)))%Z →
  __setitem__ key value c =
    (mk (o ++ [key]) (delete firstKey (<[key := value]> (dict c)))
       (max_size c), Ok ()).
Proof.
  intros Hc Hn Ho Hlen. rewrite setitem_eq. unfold setitem_result.
  rewrite remove_first_notin by done.
  rewrite bool_decide_eq_true_2 by done. rewrite Ho.
  assert (firstKey ≠ key) as Hne.
  { intros ->. apply Hn. rewrite Ho. by left. }
  destruct (ordered_keys _ Hc firstKey) as [[vf Hvf] _].
  { rewrite Ho. by left. }
  by rewrite lookup_insert_ne, Hvf.
Qed.

Lemma exec_consistent x c :
  (0 ≤ max_size c)%Z → consistent c → consistent (exec x c).
Proof.
  intros Hm Hc. destruct x as [key value|key|key default|key]; simpl.
  - by apply setitem_consistent.
  - by apply getitem_consistent.
  - by apply get_consistent.
  - by apply pop_consistent.
Qed.

Lemma exec_max_size x c : max_size (exec x c) = max_size c.
Proof.
  destruct x as [key value|key|key default|key]; simpl.
  - apply setitem_max_size.
  - apply getitem_max_size.
  - apply get_max_size.
  - apply pop_max_size.
Qed.

Lemma exec_length_bound x c :
  (Z.of_nat (length (ordered c)) ≤ max_size c + 1)%Z →
  (Z.of_nat (length (ordered (exec x c))) ≤ max_size (exec x c) + 1)%Z.
Proof.
  intros Hb.
  assert (∀ key, (Z.of_nat (length (ordered (__getitem__ key c).1))
                    ≤ max_size (__getitem__ key c).1 + 1)%Z) as Hget.
  { intros key. rewrite getitem_eq. unfold getitem_result.
    destruct (list_index key (ordered c)) as [i|] eqn:Hi; [|done].
    assert (key ∈ ordered c) as Hin by (apply elem_of_ordered_index; eauto).
    pose proof (touched_length key c Hin) as Hl.
    by destruct (dict c !! key); simpl in *; rewrite Hl. }
  destruct x as [key value|key|key default|key]; simpl.
  - by apply setitem_length_bound.
  - apply Hget.
  - rewrite get_eq. unfold get_result. case_bool_decide.
    + rewrite <- getitem_eq. apply Hget.
    + destruct (is_not_None default); [|done].
      pose proof (setitem_length_bound key default c Hb) as Hs.
      rewrite setitem_eq in Hs.
      by destruct (setitem_result key default c) as [c' [[]|e]].
  - rewrite pop_eq. unfold pop_result.
    destruct (list_index key (ordered c)) as [i|]; [|done].
    pose proof (remove_first_length_le key (ordered c)).
    destruct (dict c !! key); simpl; lia.
Qed.

(** Whatever the calls, a cache created with a capacity that is not
    negative stays consistent, keeps its capacity, and holds at most one
    key more than its capacity. *)
Lemma execs_init m (l : list (call (V := V))) :
  (0 ≤ m)%Z →
  consistent (execs l (init m)) ∧ max_size (execs l (init m)) = m ∧
  (Z.of_nat (length (ordered (execs l (init m)))) ≤ m + 1)%Z.
Proof.
  intros Hm. unfold execs.
  induction l as [|x l IH] using rev_ind.
  - simpl. split; [apply consistent_init |]. split; [done | lia].
  - rewrite foldl_app. simpl. destruct IH as (Hc & Hs & Hb).
    split; [apply exec_consistent; [lia | done] |].
    split; [by rewrite exec_max_size |].
    pose proof (exec_length_bound x (foldl (λ c x, exec x c) (init m) l))
      as Hx.
    rewrite exec_max_size, Hs in Hx. apply Hx. lia.
Qed.
End values.
End DataCacheValues.

(** ** The claims about the cache *)

Module DataCacheClaims.
Import DataCache DataCacheFacts DataCacheInv DataCacheValues.

(** C1, on the code: with capacity 2, after set("A",1), set("B",2),
    set("C",3) no key was evicted.  The three calls return normally,
    keys() is ["A","B","C"], contains("A") is True and the cache holds
    three entries, one more than its capacity: __setitem__ compares the
    length with max_size before it appends the new key. *)
Theorem C1_capacity_two_holds_three_keys :
  let r := (__setitem__ "A" (PyObj 1%Z);;
            __setitem__ "B" (PyObj 2%Z);;
            __setitem__ "C" (PyObj 3%Z)) (init 2) in
  r.2 = Ok () ∧ keys r.1 = ["A"; "B"; "C"] ∧ __contains__ "A" r.1 = true ∧
  __len__ r.1 = 3%nat ∧ max_size r.1 = 2%Z.
Proof. vm_compute. done. Qed.

(** C2, on the code: with capacity 2, after set("A",1), set("B",2),
    get("A"), set("C",3) the call of get returned 1 and moved "A" behind
    "B", and keys() is ["B","A","C"]: "B" was not evicted, since the
    cache evicts only when it already holds more than max_size keys. *)
Theorem C2_touched_scenario_keeps_three_keys :
  let r := (__setitem__ "A" (PyObj 1%Z);;
            __setitem__ "B" (PyObj 2%Z);;
            (x ← __getitem__ "A";
             (__setitem__ "C" (PyObj 3%Z);;
              mret x))) (init 2) in
  r.2 = Ok (PyObj 1%Z) ∧ keys r.1 = ["B"; "A"; "C"] ∧
  __contains__ "B" r.1 = true.
Proof. vm_compute. done. Qed.

Section claims.
Context {V : Type}.
Implicit Types (c : t V) (key k : string) (value v w : pyval V).

(** C4: get_or_insert(k, v) with a value v that is not None, on a cache
    that does not contain k, returns v itself and stores it under k; a
    following get_or_insert(k, w) returns the stored v, whatever w is,
    and changes neither the number of entries nor the mapping. *)
Theorem C4_get_or_insert_returns_stored c k v w :
  (0 ≤ max_size c)%Z → consistent c →
  __contains__ k c = false → v ≠ PyNone →
  let r1 := get k v c in
  let r2 := get k w r1.1 in
  r1.2 = Ok v ∧ dict r1.1 !! k = Some v ∧ __contains__ k r1.1 = true ∧
  r2.2 = Ok v ∧ __len__ r2.1 = __len__ r1.1 ∧ dict r2.1 = dict r1.1.
Proof.
  intros Hm Hc Hk Hv. cbv zeta.
  rewrite contains_ordered in Hk by done.
  apply bool_decide_eq_false in Hk.
  assert (get k v c = ((__setitem__ k v c).1, Ok v)) as ->.
  { rewrite get_eq. unfold get_result.
    rewrite bool_decide_eq_false_2 by done.
    destruct v as [|x]; [done |]. simpl.
    destruct (setitem_consistent k (PyObj x) c Hm Hc) as [Hr _].
    rewrite setitem_eq in *.
    destruct (setitem_result k (PyObj x) c) as [c' [[]|e]]; [done |].
    discriminate Hr. }
  simpl.
  destruct (setitem_consistent k v c Hm Hc) as [_ Hc'].
  destruct (setitem_stored k v c Hm Hc) as [Hst _].
  set (c1 := (__setitem__ k v c).1) in *.
  assert (k ∈ ordered c1) as Hin by (apply (ordered_keys _ Hc'); eauto).
  split; [done |]. split; [done |]. split.
  { unfold __contains__. rewrite Hst. by apply bool_decide_eq_true_2. }
  rewrite get_eq. unfold get_result.
  rewrite bool_decide_eq_true_2 by done.
  rewrite <- getitem_eq, (getitem_present k v c1) by done. simpl.
  split; [done |]. split; [|done].
  unfold __len__. by apply (touched_length k c1).
Qed.

(** C5: for a cache with a capacity that is not negative, set, get,
    get_or_insert and remove each leave the cache consistent, also when
    they raise: the recency order has no duplicate key, is as long as the
    mapping has entries, and holds exactly the keys of the mapping. *)
Theorem C5_methods_preserve_consistency c :
  (0 ≤ max_size c)%Z → consistent c →
  (∀ key value, consistent (__setitem__ key value c).1) ∧
  (∀ key, consistent (__getitem__ key c).1) ∧
  (∀ key default, consistent (get key default c).1) ∧
  (∀ key, consistent (pop key c).1).
Proof.
  intros Hm Hc. split; [|split; [|split]].
  - intros key value. by apply setitem_consistent.
  - intros key. by apply getitem_consistent.
  - intros key default. by apply get_consistent.
  - intros key. by apply pop_consistent.
Qed.
End claims.

Lemma C4_get_or_insert_returns_stored_witness :
  let r1 := get "X" (PyObj 99%Z) (init 10) in
  let r2 := get "X" (PyObj 7%Z) r1.1 in
  r1.2 = Ok (PyObj 99%Z) ∧ dict r1.1 !! "X" = Some (PyObj 99%Z) ∧
  __contains__ "X" r1.1 = true ∧
  r2.2 = Ok (PyObj 99%Z) ∧ __len__ r2.1 = __len__ r1.1 ∧
  dict r2.1 = dict r1.1.
Proof.
  apply (C4_get_or_insert_returns_stored (init 10) "X" (PyObj 99%Z) (PyObj 7%Z)).
  - simpl. lia.
  - apply consistent_init.
  - reflexivity.
  - discriminate.
Defined.

Lemma C5_methods_preserve_consistency_witness :
  (∀ key value, consistent (__setitem__ (V := Z) key value (init 2)).1) ∧
  (∀ key, consistent (__getitem__ (V := Z) key (init 2)).1) ∧
  (∀ key default, consistent (get (V := Z) key default (init 2)).1) ∧
  (∀ key, consistent (pop (V := Z) key (init 2)).1).
Proof.
  apply (C5_methods_preserve_consistency (init 2)).
  - simpl. lia.
  - apply consistent_init.
Defined.

(** C7, on the code: on the empty cache, get of an absent key raises
    ValueError, the error of list.index, and leaves the cache as it was;
    remove of an absent key raises KeyError. *)
Theorem C7_getitem_absent_raises_ValueError :
  __getitem__ (V := Z) "k" (init 10) = (init 10, Raise ValueError) ∧
  pop (V := Z) "k" (init 10) = (init 10, Raise KeyError).
Proof. split; reflexivity. Qed.
End DataCacheClaims.

(** ** The shared state of all instances *)

Module BorgClaims.
Import DataCache DataCacheFacts DataCacheInv DataCacheValues Borg.
Section borg.
Context {V : Type}.
Implicit Types (p : process V) (c : t V) (k : string) (v : pyval V).





End borg.

End BorgClaims.

(** ** The plugin: reuse of integrators *)

Module IntegrateSetup.
Import DataCache DataCacheFacts DataCacheInv DataCacheValues Integrate.


Section setup.
Context {geometry : Type}.
Variable load : string → geometry.
Variable str : geometry → string.
Variable path_exists : string → bool.
Variable abspath : string → string.

Abbreviation setup := (Integrate.setup load str path_exists abspath).
Implicit Types (s : state geometry) (input : job_input) (dir : string).



End setup.



End IntegrateSetup.

(** ** The plugin: the frames of a batch *)

Module IntegrateProcess.
Import Integrate.
Section process.
Context {geometry : Type}.
Variable path_exists : string → bool.
Variable destination : string → string → string.

Abbreviation frame := (Integrate.frame (geometry := geometry) path_exists destination).
Abbreviation frames := (Integrate.frames (geometry := geometry) path_exists destination).
Abbreviation process := (Integrate.process (geometry := geometry) path_exists destination).
Abbreviation accepted := (Integrate.accepted path_exists).
Abbreviation warning_of := (Integrate.warning_of path_exists).
Abbreviation added := (Integrate.added path_exists destination).
Implicit Types (s : state geometry) (l : list (monitor * string)).
Implicit Types (r : result string).

(** The loop appends what [added] gives and ends as it says; nothing else
    of the plugin changes, so the integration of every frame ends as that
    of the first. *)
Lemma frames_added l s :
  frames l s =
    (Integrate.mk (objects s) (_ais s) (ai s) (dest_dir s) (ntp s) (npt s)
       (unit s) (input_files s) (monitor_values s)
       (output_files s ++ (added (integration s) l).1.1)
       (_logging s ++ (added (integration s) l).1.2),
     (added (integration s) l).2).
Proof.
  revert s. induction l as [|[m f] l IH]; intros s.
  - simpl. rewrite !app_nil_r. by destruct s.
  - simpl. unfold Integrate.accepted. simpl.
    destruct (path_exists f) eqn:Hf; simpl.
    + destruct (truthy m) eqn:Hm; simpl.
      * destruct (integration s) as [dir|e] eqn:Hi;
          [|simpl; rewrite !app_nil_r; by destruct s].
        rewrite IH. unfold integration in *. simpl. rewrite Hi.
        destruct (Integrate.added _ _ _ l) as [[outs warns] e]. simpl.
        by rewrite <- !app_assoc.
      * rewrite IH. unfold integration, Integrate.warning_of. simpl.
        rewrite Hf.
        destruct (Integrate.added _ _ _ l) as [[outs warns] e]. simpl.
        by rewrite <- !app_assoc.
    + rewrite IH. unfold integration, Integrate.warning_of. simpl.
      rewrite Hf.
      destruct (Integrate.added _ _ _ l) as [[outs warns] e]. simpl.
      by rewrite <- !app_assoc.
Qed.

Lemma process_frames s :
  process s =
    frames (pairs s)
      (match monitor_values s with
       | None =>
           set_monitor_values
             (Some (replicate (length (input_files s)) (MInt 1))) s
       | Some _ => s
       end).
Proof.
  unfold Integrate.process, pairs.
  by destruct (monitor_values s) eqn:E; simpl; rewrite ?E.
Qed.

(** [process] in one piece. *)
Lemma process_added s :
  process s =
    (Integrate.mk (objects s) (_ais s) (ai s) (dest_dir s) (ntp s) (npt s)
       (unit s) (input_files s)
       (Some (default (replicate (length (input_files s)) (MInt 1))
                (monitor_values s)))
       (output_files s ++ (added (integration s) (pairs s)).1.1)
       (_logging s ++ (added (integration s) (pairs s)).1.2),
     (added (integration s) (pairs s)).2).
Proof.
  rewrite process_frames.
  destruct (monitor_values s) as [ms|] eqn:Hms; rewrite frames_added;
    simpl; by rewrite ?Hms.
Qed.

(** Each frame adds at most one output path or one warning, and exactly
    one when the loop runs to its end. *)
Lemma added_length r l :
  (length (added r l).1.1 + length (added r l).1.2 ≤ length l)%nat ∧
  ((added r l).2 = Ok () →
   length (added r l).1.1 + length (added r l).1.2 = length l)%nat.
Proof.
  induction l as [|x l IH]; [done |]. simpl.
  destruct (accepted x); [destruct r as [dir|e] |].
  - destruct (Integrate.added _ _ _ l) as [[outs warns] e]. simpl in *.
    destruct IH as [Hle Heq]. split; [lia |].
    intros He. specialize (Heq He). lia.
  - simpl. split; [lia | done].
  - destruct (Integrate.added _ _ _ l) as [[outs warns] e]. simpl in *.
    destruct IH as [Hle Heq]. split; [lia |].
    intros He. specialize (Heq He). lia.
Qed.

(** When the integration of a frame raises, the loop stops at the first
    frame that passes the two tests, having logged a warning for each
    frame before it and added no output path. *)
Lemma added_raise e before x after :
  Forall (λ y, accepted y = false) before → accepted x = true →
  added (Raise e) (before ++ x :: after) = ([], warning_of <$> before, Raise e).
Proof.
  intros Hb Hx. induction Hb as [|y before Hy Hb IH]; simpl.
  - by rewrite Hx.
  - rewrite Hy. fold added. by rewrite IH.
Qed.

(** When no frame passes the two tests the loop runs to its end. *)
Lemma added_skip r l :
  Forall (λ y, accepted y = false) l →
  added r l = ([], warning_of <$> l, Ok ()).
Proof.
  intros Hl. induction Hl as [|y l Hy Hl IH]; simpl; [done |].
  rewrite Hy. fold added. by rewrite IH.
Qed.

(** When the integration of a frame succeeds the loop runs to its end:
    one output path for each frame that passes the two tests, one warning
    for each other frame. *)
Lemma added_ok dir l :
  added (Ok dir) l =
    ((λ x, destination dir x.2) <$> filter (λ x, accepted x = true) l,
     warning_of <$> filter (λ x, accepted x = false) l,
     Ok ()).
Proof.
  induction l as [|x l IH]; [done |]. simpl. fold added. rewrite IH.
  rewrite !filter_cons.
  destruct (accepted x) eqn:Hx; repeat case_decide; try congruence; done.
Qed.

(** C10: with monitor_values given and shorter than input_files, process
    does what it does on the first len(monitor_values) input files alone:
    it ends the same way, with the same output files and the same
    warnings.  Outputs and warnings together grow by len(monitor_values)
    at most, and by len(monitor_values) when process returns normally:
    the frames of the shorter list account for all of them. *)
Theorem C10_process_ignores_files_beyond_monitors s ms :
  monitor_values s = Some ms →
  (length ms < length (input_files s))%nat →
  let r := process s in
  let r' := process (set_input_files (take (length ms) (input_files s)) s) in
  r.2 = r'.2 ∧ teardown r.1 = teardown r'.1 ∧ _logging r.1 = _logging r'.1 ∧
  (length (teardown r.1) + length (_logging r.1) ≤
   length (output_files s) + length (_logging s) + length ms)%nat ∧
  (r.2 = Ok () →
   length (teardown r.1) + length (_logging r.1) =
   length (output_files s) + length (_logging s) + length ms)%nat.
Proof.
  intros Hms Hlt. cbv zeta. rewrite !process_added.
  assert (pairs (set_input_files (take (length ms) (input_files s)) s)
          = pairs s) as ->.
  { unfold pairs. simpl. rewrite Hms. simpl. apply zip_with_take_r. }
  assert (integration (set_input_files (take (length ms) (input_files s)) s)
          = integration s) as -> by done.
  assert (length (pairs s) = length ms) as Hl.
  { unfold pairs. rewrite Hms. simpl. rewrite length_zip_with. lia. }
  simpl. unfold teardown. simpl.
  split; [done |]. split; [done |]. split; [done |].
  rewrite !length_app.
  destruct (added_length (integration s) (pairs s)) as [Hle Heq].
  split; [lia |]. intros Hok. specialize (Heq Hok). lia.
Qed.
End process.

(** Four input files and two monitor values, on the plugin after its
    setup. *)
Lemma C10_process_ignores_files_beyond_monitors_witness :
  let s := set_monitor_values (Some [MInt 1; MInt 1])
             (set_input_files ["f1"; "f2"; "f3"; "f4"] after_first_setup) in
  let r := Integrate.process on_disk dat s in
  let r' := Integrate.process on_disk dat
              (set_input_files (take 2 (input_files s)) s) in
  r.2 = r'.2 ∧ teardown r.1 = teardown r'.1 ∧ _logging r.1 = _logging r'.1 ∧
  (length (teardown r.1) + length (_logging r.1) ≤
   length (output_files s) + length (_logging s) + 2)%nat ∧
  (r.2 = Ok () →
   length (teardown r.1) + length (_logging r.1) =
   length (output_files s) + length (_logging s) + 2)%nat.
Proof.
  intros s.
  apply (C10_process_ignores_files_beyond_monitors on_disk dat s
           [MInt 1; MInt 1]).
  - reflexivity.
  - simpl. lia.
Defined.

(** C6: the job of three images of which the second is missing, on a
    plugin that __init__ built.  Setup binds the output directory and the
    integrator and then raises AttributeError: it reads self.npt and
    __init__ assigned self.ntp.  It has not bound input_files: process run
    after it finds no frame and the job has no output file.  With the three
    images bound to input_files by hand, process raises AttributeError
    at the first one, where it reads self.npt again: no output file, and
    the missing image is never reached.  The job has no output file where
    the two images that exist should give two. *)
Theorem C6_job_of_three_images_has_no_output :
  let s0 := Integrate.__init__ (geometry := string) [] (DataCache.init 10) in
  let r := Integrate.setup (λ p, p) (λ g, g) on_disk (λ p, p) a_poni s0 in
  in_input_files a_poni = Some ["f1"; "f2"; "f3"] ∧
  on_disk "f1" = true ∧ on_disk "f2" = false ∧ on_disk "f3" = true ∧
  r.2 = Raise AttributeError ∧
  dest_dir r.1 = Some "out" ∧ ai r.1 = PyObj 0%nat ∧ npt r.1 = None ∧
  input_files r.1 = [] ∧
  Integrate.process on_disk dat r.1 = (set_monitor_values (Some []) r.1, Ok ())
    ∧
  teardown (Integrate.process on_disk dat r.1).1 = [] ∧
  let r' := Integrate.process on_disk dat
              (set_input_files ["f1"; "f2"; "f3"] r.1) in
  r'.2 = Raise AttributeError ∧ teardown r'.1 = [] ∧ _logging r'.1 = [].
Proof. vm_compute. repeat split. Qed.
End IntegrateProcess.

(** ** Several callers of the cache *)

Module ConcurrentClaims.
Import Concurrent.

(** C9, on the code: get_or_insert tests [key in self.ordered] before it
    takes the semaphore.  Two threads call get_or_insert("k", 1) and
    get_or_insert("k", 2) on the empty cache; both test, then both insert:
    each returns its own default and the cache keeps 2, the insertion of 1
    is lost.  When one call runs after the other, both return the same
    object.  And when remove("k") runs between the test and the locked
    part of get_or_insert("k", 1), get_or_insert raises ValueError, which
    it does in neither order of the two calls. *)
Theorem C9_get_or_insert_tests_outside_the_lock :
  (results <$> run [0; 1; 0; 0; 0; 1; 1; 1]%nat two_inserts
     = Some [Some (Ok (PyObj 1%Z)); Some (Ok (PyObj 2%Z))] ∧
   stored_k <$> run [0; 1; 0; 0; 0; 1; 1; 1]%nat two_inserts
     = Some (Some (PyObj 2%Z))) ∧
  (results <$> run [0; 0; 0; 0; 1; 1; 1; 1]%nat two_inserts
     = Some [Some (Ok (PyObj 1%Z)); Some (Ok (PyObj 1%Z))] ∧
   results <$> run [1; 1; 1; 1; 0; 0; 0; 0]%nat two_inserts
     = Some [Some (Ok (PyObj 2%Z)); Some (Ok (PyObj 2%Z))]) ∧
  (results <$> run [0; 1; 1; 1; 0; 0; 0]%nat lookup_and_pop
     = Some [Some (Raise ValueError); Some (Ok (PyObj 5%Z))] ∧
   results <$> run [0; 0; 0; 0; 1; 1; 1]%nat lookup_and_pop
     = Some [Some (Ok (PyObj 5%Z)); Some (Ok (PyObj 5%Z))] ∧
   results <$> run [1; 1; 1; 0; 0; 0; 0]%nat lookup_and_pop
     = Some [Some (Ok (PyObj 1%Z)); Some (Ok (PyObj 5%Z))]).
Proof. vm_compute. done. Qed.
End ConcurrentClaims.

(** * Further properties of the code *)

(** ** The cache *)

Module DataCacheExtras.
Import DataCache DataCacheFacts DataCacheInv DataCacheValues.
Section extras.
Context {V : Type}.
Implicit Types (c : t V) (key k : string) (value v w : pyval V).

Lemma filter_ne_notin key (o : list string) :
  key ∉ o → filter (λ k, k ≠ key) o = o.
Proof.
  induction o as [|x o IH]; [done |].
  rewrite not_elem_of_cons. intros [Hne Ho].
  rewrite filter_cons, decide_True by done. by rewrite IH.
Qed.

Lemma remove_first_filter key (o : list string) :
  NoDup o → remove_first key o = filter (λ k, k ≠ key) o.
Proof.
  induction 1 as [|x o Hx Hnd IH]; simpl; [done |].
  rewrite filter_cons. destruct (decide (x = key)) as [->|Hne].
  - rewrite decide_False by (intros Hk; by apply Hk).
    by rewrite filter_ne_notin.
  - rewrite decide_True by done. by rewrite IH.
Qed.

(** X1: whatever calls are made on a cache created with a capacity that
    is not negative, and whether they return or raise, the cache stays
    consistent, its capacity stays what it was created with, it holds at
    most max_size + 1 keys, and [key in cache] agrees with keys(). *)
Theorem reachable_cache_consistent_and_bounded m (l : list (call (V := V))) :
  (0 ≤ m)%Z →
  let c := execs l (init m) in
  consistent c ∧ max_size c = m ∧ (Z.of_nat (__len__ c) ≤ m + 1)%Z ∧
  (∀ k, __contains__ k c = true ↔ k ∈ keys c).
Proof.
  intros Hm. cbv zeta. destruct (execs_init m l Hm) as (Hc & Hs & Hb).
  split; [done |]. split; [done |]. split; [done |].
  intros k. rewrite contains_ordered by done.
  apply bool_decide_eq_true.
Qed.

(** X2: setting a new key in a consistent cache that already holds more
    than max_size keys returns normally and evicts the head of the recency
    order and nothing else: the other keys keep their order and their
    values, the new key comes last, and the number of keys is unchanged. *)
Theorem setitem_full_evicts_least_recent key value c firstKey o :
  consistent c → key ∉ ordered c → ordered c = firstKey :: o →
  (max_size c < Z.of_nat (length (ordered c)))%Z →
  let r := __setitem__ key value c in
  r.2 = Ok () ∧ keys r.1 = o ++ [key] ∧
  __contains__ firstKey r.1 = false ∧ dict r.1 !! key = Some value ∧
  (∀ k, k ≠ key → k ≠ firstKey → dict r.1 !! k = dict c !! k) ∧
  __len__ r.1 = __len__ c.
Proof.
  intros Hc Hn Ho Hlen. cbv zeta.
  rewrite (setitem_new_key_evicts key value c firstKey o) by done. simpl.
  assert (firstKey ≠ key) as Hne.
  { intros ->. apply Hn. rewrite Ho. by left. }
  split; [done |]. split; [done |]. split.
  { unfold __contains__. simpl. rewrite lookup_delete_eq.
    apply bool_decide_eq_false_2. by intros [? ?]. }
  split; [by rewrite lookup_delete_ne, lookup_insert_eq |].
  split.
  { intros k Hk1 Hk2. by rewrite lookup_delete_ne, lookup_insert_ne. }
  unfold __len__. simpl. rewrite Ho, length_app. simpl. lia.
Qed.

(** X3: setting a key that is already there, in a consistent cache that
    holds at most max_size + 1 keys, evicts nothing: the value is
    replaced, every other entry is kept, the key moves to the end of the
    recency order behind the others in their old order, and the number of
    keys is unchanged. *)
Theorem setitem_overwrite_evicts_nothing key value c :
  consistent c → key ∈ ordered c →
  (Z.of_nat (length (ordered c)) ≤ max_size c + 1)%Z →
  let r := __setitem__ key value c in
  r.2 = Ok () ∧ dict r.1 = <[key := value]> (dict c) ∧
  keys r.1 = filter (λ k, k ≠ key) (keys c) ++ [key] ∧
  __len__ r.1 = __len__ c.
Proof.
  intros Hc Hin Hb. cbv zeta. rewrite setitem_eq. unfold setitem_result.
  pose proof (remove_first_length key _ Hin) as Hl.
  rewrite bool_decide_eq_false_2 by lia. simpl.
  split; [done |]. split; [done |].
  rewrite remove_first_filter by apply (ordered_NoDup _ Hc).
  split; [done |].
  unfold __len__. simpl.
  rewrite <- remove_first_filter by apply (ordered_NoDup _ Hc).
  rewrite length_app. simpl. lia.
Qed.

(** X4: reading a key that is there, in a consistent cache, returns the
    stored value, leaves the mapping and the number of keys as they were,
    and moves the key to the end of the recency order, the other keys
    keeping their order. *)
Theorem getitem_moves_key_to_the_end key v c :
  consistent c → dict c !! key = Some v →
  let r := __getitem__ key c in
  r.2 = Ok v ∧ dict r.1 = dict c ∧ max_size r.1 = max_size c ∧
  keys r.1 = filter (λ k, k ≠ key) (keys c) ++ [key] ∧
  __len__ r.1 = __len__ c.
Proof.
  intros Hc Hv. cbv zeta. rewrite (getitem_present key v c Hc Hv). simpl.
  assert (key ∈ ordered c) as Hin by (apply (ordered_keys _ Hc); eauto).
  split; [done |]. split; [done |]. split; [done |]. split.
  - unfold keys. by rewrite remove_first_filter by apply (ordered_NoDup _ Hc).
  - unfold __len__. apply (touched_length key c Hin).
Qed.

(** X5: in a consistent cache that holds at most max_size keys, setting a
    new key and then removing it gives the value back and leaves the cache
    exactly as it was before the two calls. *)
Theorem setitem_then_pop_restores key value c :
  consistent c → key ∉ ordered c →
  (Z.of_nat (length (ordered c)) ≤ max_size c)%Z →
  (__setitem__ key value;; pop key) c = (c, Ok value).
Proof.
  intros Hc Hn Hlen. unfold mbind, M_bind.
  rewrite (setitem_new_key_fits key value c Hn Hlen).
  rewrite pop_eq. unfold pop_result. simpl.
  destruct (list_index key (ordered c ++ [key])) as [i|] eqn:Hi.
  2:{ apply list_index_None in Hi. exfalso. apply Hi.
      apply elem_of_app. right. by left. }
  rewrite lookup_insert_eq. f_equal.
  assert (dict c !! key = None) as Hd.
  { destruct (dict c !! key) eqn:E; [|done].
    exfalso. apply Hn. apply (ordered_keys _ Hc). eauto. }
  rewrite delete_insert_id by done.
  assert (remove_first key (ordered c ++ [key]) = ordered c) as ->.
  { clear -Hn. induction (ordered c) as [|x o IH]; simpl.
    - by rewrite decide_True.
    - apply not_elem_of_cons in Hn as [Hne Ho].
      rewrite decide_False by done. by rewrite IH. }
  by destruct c.
Qed.

(** X6: removing a key that is there, from a consistent cache, returns its
    value and removes that entry alone: every other entry and the order of
    the other keys are kept, the cache has one key less and stays
    consistent, and a following read of the key raises ValueError. *)
Theorem pop_removes_that_key_alone key v c :
  consistent c → dict c !! key = Some v →
  let r := pop key c in
  r.2 = Ok v ∧ dict r.1 = delete key (dict c) ∧
  keys r.1 = filter (λ k, k ≠ key) (keys c) ∧
  S (__len__ r.1) = __len__ c ∧ __contains__ key r.1 = false ∧
  consistent r.1 ∧ (__getitem__ key r.1).2 = Raise ValueError.
Proof.
  intros Hc Hv. cbv zeta.
  pose proof (pop_consistent key c Hc) as Hc'.
  destruct (pop_present key v c Hc Hv) as (Hp & Hk & Hd).
  rewrite Hp in *. simpl in *.
  assert (key ∈ ordered c) as Hin by (apply (ordered_keys _ Hc); eauto).
  split; [done |]. split; [done |]. split.
  { unfold keys. by rewrite remove_first_filter by apply (ordered_NoDup _ Hc). }
  split; [apply (remove_first_length key _ Hin) |]. split.
  { unfold __contains__. simpl. rewrite Hd.
    apply bool_decide_eq_false_2. by intros [? ?]. }
  split; [done |].
  by rewrite getitem_absent.
Qed.

(** X7: on a consistent cache with a capacity that is not negative, get
    never raises: it returns the stored value when the key is there,
    whatever the default, and the default otherwise; for an absent key and
    the default None it leaves the cache as it was. *)
Theorem get_returns_stored_or_default key default c :
  consistent c → (0 ≤ max_size c)%Z →
  (get key default c).2 = Ok (from_option id default (dict c !! key)) ∧
  (dict c !! key = None → default = PyNone → (get key default c).1 = c).
Proof.
  intros Hc Hm. rewrite get_eq. unfold get_result.
  case_bool_decide as Hin.
  - destruct (ordered_keys _ Hc key) as [[v Hv] _]; [done |].
    rewrite <- getitem_eq, (getitem_present key v c Hc Hv), Hv. simpl.
    split; [done |]. intros [=].
  - assert (dict c !! key = None) as ->.
    { destruct (dict c !! key) eqn:E; [|done].
      exfalso. apply Hin. apply (ordered_keys _ Hc). eauto. }
    simpl. destruct default as [|x]; simpl; [done |].
    destruct (setitem_consistent key (PyObj x) c Hm Hc) as [Hr _].
    rewrite setitem_eq in Hr.
    destruct (setitem_result key (PyObj x) c) as [c' [[]|e]];
      [|discriminate Hr].
    split; [done |]. intros _ [=].
Qed.

(** X8: a cache created with a negative capacity never lists a key:
    after any calls keys() is empty, and every set raises IndexError after
    it has written the value into the mapping, so the key is in the
    mapping ([key in cache] is True) while the length stays zero. *)
Theorem negative_capacity_orders_nothing m (l : list (call (V := V))) key value :
  (m < 0)%Z →
  let c := execs l (init m) in
  let r := __setitem__ key value c in
  keys c = [] ∧ max_size c = m ∧
  r = (mk [] (<[key := value]> (dict c)) m, Raise IndexError) ∧
  __contains__ key r.1 = true ∧ __len__ r.1 = 0%nat.
Proof.
  intros Hm. cbv zeta.
  assert (∀ c k v, ordered c = [] → max_size c = m →
    __setitem__ k v c = (mk [] (<[k := v]> (dict c)) m, Raise IndexError))
    as Hset.
  { intros c k v Ho Hs. rewrite setitem_eq. unfold setitem_result.
    rewrite Ho, Hs. simpl. by rewrite bool_decide_eq_true_2 by lia. }
  assert (ordered (execs l (init m)) = [] ∧ max_size (execs l (init m)) = m)
    as [Ho Hs].
  { unfold execs. induction l as [|x l [IHo IHs]] using rev_ind; [done |].
    rewrite foldl_app. simpl.
    set (c := foldl (λ c x, exec x c) (init m) l) in *.
    destruct x as [k v|k|k d|k]; simpl.
    - by rewrite (Hset c k v IHo IHs).
    - rewrite getitem_absent; [done |]. rewrite IHo. apply not_elem_of_nil.
    - rewrite get_eq. unfold get_result.
      rewrite bool_decide_eq_false_2 by (rewrite IHo; apply not_elem_of_nil).
      destruct (is_not_None d); [|done].
      by rewrite <- setitem_eq, (Hset c k d IHo IHs).
    - rewrite pop_absent; [done |]. rewrite IHo. apply not_elem_of_nil. }
  split; [done |]. split; [done |].
  rewrite (Hset _ key value Ho Hs). split; [done |]. split; [|done].
  unfold __contains__. simpl. rewrite lookup_insert_eq.
  by apply bool_decide_eq_true_2.
Qed.
End extras.
End DataCacheExtras.

Module DataCacheExtrasWitnesses.
Import DataCache DataCacheFacts DataCacheInv DataCacheValues DataCacheExtras.
Import CacheNotions.

(** Membership in a concrete list, by evaluation. *)
Ltac by_membership :=
  match goal with
  | |- ?x ∉ ?l => apply (bool_decide_eq_false_1 (x ∈ l))
  | |- ?x ∈ ?l => apply (bool_decide_eq_true_1 (x ∈ l))
  end; vm_compute; reflexivity.

Lemma three_keys_consistent : consistent three_keys.
Proof. apply (execs_init 2). lia. Qed.

Lemma two_keys_consistent : consistent two_keys.
Proof. apply (execs_init 2). lia. Qed.

Lemma reachable_cache_consistent_and_bounded_witness :
  let c := execs [SetItem "A" (PyObj 1%Z); GetItem "Z"; Get "B" (PyObj 2%Z);
                  Pop "A"; SetItem "C" PyNone] (init 1) in
  consistent c ∧ max_size c = 1%Z ∧ (Z.of_nat (__len__ c) ≤ 1 + 1)%Z ∧
  (∀ k, __contains__ k c = true ↔ k ∈ keys c).
Proof.
  apply (reachable_cache_consistent_and_bounded 1
           [SetItem "A" (PyObj 1%Z); GetItem "Z"; Get "B" (PyObj 2%Z);
            Pop "A"; SetItem "C" PyNone]).
  lia.
Defined.

Lemma setitem_full_evicts_least_recent_witness :
  let r := __setitem__ "D" (PyObj 4%Z) three_keys in
  r.2 = Ok () ∧ keys r.1 = ["B"; "C"] ++ ["D"] ∧
  __contains__ "A" r.1 = false ∧ dict r.1 !! "D" = Some (PyObj 4%Z) ∧
  (∀ k, k ≠ "D" → k ≠ "A" → dict r.1 !! k = dict three_keys !! k) ∧
  __len__ r.1 = __len__ three_keys.
Proof.
  apply (setitem_full_evicts_least_recent "D" (PyObj 4%Z) three_keys "A"
           ["B"; "C"]).
  - apply three_keys_consistent.
  - by_membership.
  - reflexivity.
  - vm_compute. reflexivity.
Defined.

Lemma setitem_overwrite_evicts_nothing_witness :
  let r := __setitem__ "A" (PyObj 9%Z) three_keys in
  r.2 = Ok () ∧ dict r.1 = <["A" := PyObj 9%Z]> (dict three_keys) ∧
  keys r.1 = filter (λ k, k ≠ "A") (keys three_keys) ++ ["A"] ∧
  __len__ r.1 = __len__ three_keys.
Proof.
  apply (setitem_overwrite_evicts_nothing "A" (PyObj 9%Z) three_keys).
  - apply three_keys_consistent.
  - by_membership.
  - vm_compute. discriminate.
Defined.

Lemma getitem_moves_key_to_the_end_witness :
  let r := __getitem__ "A" three_keys in
  r.2 = Ok (PyObj 1%Z) ∧ dict r.1 = dict three_keys ∧
  max_size r.1 = max_size three_keys ∧
  keys r.1 = filter (λ k, k ≠ "A") (keys three_keys) ++ ["A"] ∧
  __len__ r.1 = __len__ three_keys.
Proof.
  apply (getitem_moves_key_to_the_end "A" (PyObj 1%Z) three_keys).
  - apply three_keys_consistent.
  - vm_compute. reflexivity.
Defined.

Lemma setitem_then_pop_restores_witness :
  (__setitem__ "C" (PyObj 3%Z);; pop "C") two_keys = (two_keys, Ok (PyObj 3%Z)).
Proof.
  apply (setitem_then_pop_restores "C" (PyObj 3%Z) two_keys).
  - apply two_keys_consistent.
  - by_membership.
  - vm_compute. discriminate.
Defined.

Lemma pop_removes_that_key_alone_witness :
  let r := pop "B" three_keys in
  r.2 = Ok (PyObj 2%Z) ∧ dict r.1 = delete "B" (dict three_keys) ∧
  keys r.1 = filter (λ k, k ≠ "B") (keys three_keys) ∧
  S (__len__ r.1) = __len__ three_keys ∧ __contains__ "B" r.1 = false ∧
  consistent r.1 ∧ (__getitem__ "B" r.1).2 = Raise ValueError.
Proof.
  apply (pop_removes_that_key_alone "B" (PyObj 2%Z) three_keys).
  - apply three_keys_consistent.
  - vm_compute. reflexivity.
Defined.

Lemma get_returns_stored_or_default_witness :
  (get "A" PyNone three_keys).2
    = Ok (from_option id PyNone (dict three_keys !! "A")) ∧
  (dict three_keys !! "A" = None → PyNone = PyNone (V := Z) →
   (get "A" PyNone three_keys).1 = three_keys).
Proof.
  apply (get_returns_stored_or_default "A" PyNone three_keys).
  - apply three_keys_consistent.
  - vm_compute. discriminate.
Defined.

Lemma negative_capacity_orders_nothing_witness :
  let c := execs [SetItem "A" (PyObj 1%Z); GetItem "A"] (init (-1)) in
  let r := __setitem__ "B" (PyObj 2%Z) c in
  keys c = [] ∧ max_size c = (-1)%Z ∧
  r = (mk [] (<["B" := PyObj 2%Z]> (dict c)) (-1), Raise IndexError) ∧
  __contains__ "B" r.1 = true ∧ __len__ r.1 = 0%nat.
Proof.
  apply (negative_capacity_orders_nothing (-1)
           [SetItem "A" (PyObj 1%Z); GetItem "A"] "B" (PyObj 2%Z)).
  lia.
Defined.
End DataCacheExtrasWitnesses.

(** ** The cache: what a sequence of insertions keeps *)

Module DataCacheLRU.
Import DataCache DataCacheFacts DataCacheInv DataCacheValues CacheNotions.
Section lru.
Context {V : Type}.
Implicit Types (c : t V) (key k : string) (value v w : pyval V).
Implicit Types (kvs : list (string * pyval V)).

Lemma kept_snoc_fits m kvs kv :
  (0 ≤ m)%Z → (Z.of_nat (length (kept m kvs)) ≤ m)%Z →
  kept m kvs = kvs ∧ kept m (kvs ++ [kv]) = kvs ++ [kv].
Proof.
  unfold kept. rewrite length_drop, length_app. simpl. intros Hm Hl.
  replace (length kvs - (Z.to_nat m + 1))%nat with 0%nat by lia.
  by replace (length kvs + 1 - (Z.to_nat m + 1))%nat with 0%nat by lia.
Qed.

Lemma kept_snoc_full m kvs kv :
  (0 ≤ m)%Z → (m < Z.of_nat (length (kept m kvs)))%Z →
  ∃ first rest, kept m kvs = first :: rest ∧
                kept m (kvs ++ [kv]) = rest ++ [kv].
Proof.
  unfold kept. rewrite length_drop, length_app. simpl. intros Hm Hl.
  set (n := (length kvs - (Z.to_nat m + 1))%nat) in *.
  replace (length kvs + 1 - (Z.to_nat m + 1))%nat with (S n) by lia.
  destruct (drop n kvs) as [|first rest] eqn:Hd.
  { apply (f_equal length) in Hd. rewrite length_drop in Hd. simpl in Hd. lia. }
  exists first, rest. split; [done |].
  rewrite drop_app_le by lia. f_equal.
  replace (S n) with (n + 1)%nat by lia.
  by rewrite <- drop_drop, Hd.
Qed.

Lemma kept_NoDup m kvs : NoDup kvs.*1 → NoDup (kept m kvs).*1.
Proof.
  intros Hnd. unfold kept. rewrite fmap_drop.
  eapply sublist_NoDup; [done | apply sublist_drop].
Qed.

Lemma kept_subseteq m kvs k : k ∈ (kept m kvs).*1 → k ∈ kvs.*1.
Proof. unfold kept. rewrite fmap_drop. apply subseteq_drop. Qed.

(** X9: after any insertions of pairwise different keys into a new cache
    with a capacity that is not negative, the cache holds the last
    max_size + 1 of them and no other: keys() lists them oldest first and
    the mapping gives each its value. *)
Theorem distinct_inserts_keep_the_last m kvs :
  (0 ≤ m)%Z → NoDup kvs.*1 →
  let c := execs (inserts kvs) (init m) in
  keys c = (drop (length kvs - (Z.to_nat m + 1)) kvs).*1 ∧
  dict c = list_to_map (drop (length kvs - (Z.to_nat m + 1)) kvs) ∧
  max_size c = m.
Proof.
  intros Hm. cbv zeta. fold (kept m kvs). unfold keys, execs, inserts.
  induction kvs as [|[k v] kvs IH] using rev_ind; intros Hnd; [done |].
  rewrite fmap_app, foldl_app. simpl.
  rewrite fmap_app in Hnd. simpl in Hnd.
  apply NoDup_app in Hnd as (Hnd & Hk & _).
  destruct (IH Hnd) as (Ho & Hd & Hs). clear IH.
  set (c := foldl (λ c x, exec x c) (init m) (_ <$> kvs)) in *.
  assert (k ∉ kvs.*1) as Hknew.
  { intros Hin. apply (Hk k Hin). by left. }
  assert (k ∉ (kept m kvs).*1) as Hkk.
  { intros Hin. by apply Hknew, (kept_subseteq m). }
  rewrite setitem_eq. unfold setitem_result.
  rewrite remove_first_notin by (by rewrite Ho).
  rewrite Ho, Hs, Hd, length_fmap.
  case_bool_decide as Hlen.
  - destruct (kept_snoc_full m kvs (k, v) Hm Hlen)
      as ([fk fv] & rest & Hkept & Hnew).
    pose proof (kept_NoDup m kvs Hnd) as Hndk.
    rewrite Hkept, Hnew in *. simpl in *.
    apply NoDup_cons in Hndk as [Hfk Hndr].
    apply not_elem_of_cons in Hkk as [Hne Hkr].
    rewrite lookup_insert_ne, lookup_insert_eq by done. simpl.
    split; [by rewrite fmap_app |]. split; [|done].
    rewrite delete_insert_ne by done.
    rewrite delete_insert_id by (by apply not_elem_of_list_to_map_1).
    by rewrite list_to_map_snoc.
  - destruct (kept_snoc_fits m kvs (k, v) Hm) as [Hkept Hnew]; [lia |].
    rewrite Hkept, Hnew in *. simpl.
    split; [by rewrite fmap_app |]. split; [|done].
    by rewrite list_to_map_snoc.
Qed.
End lru.

Lemma distinct_inserts_keep_the_last_witness :
  let kvs := [("A", PyObj 1%Z); ("B", PyObj 2%Z); ("C", PyObj 3%Z);
              ("D", PyObj 4%Z)] in
  let c := execs (inserts kvs) (init 2) in
  keys c = (drop (length kvs - (Z.to_nat 2 + 1)) kvs).*1 ∧
  dict c = list_to_map (drop (length kvs - (Z.to_nat 2 + 1)) kvs) ∧
  max_size c = 2%Z.
Proof.
  apply (distinct_inserts_keep_the_last 2
           [("A", PyObj 1%Z); ("B", PyObj 2%Z); ("C", PyObj 3%Z);
            ("D", PyObj 4%Z)]).
  - lia.
  - apply (bool_decide_eq_true_1 (NoDup ["A"; "B"; "C"; "D"])).
    vm_compute. reflexivity.
Defined.
End DataCacheLRU.

(** ** The cache: how long a key that was just used stays *)

Module DataCacheRecency.
Import DataCache DataCacheFacts DataCacheInv DataCacheValues CacheNotions.
Section recency.
Context {V : Type}.
Implicit Types (c : t V) (key k : string) (value v w : pyval V).

Lemma remove_first_around key k (pre post : list string) :
  key ≠ k →
  ∃ pre1 post1,
    remove_first key (pre ++ k :: post) = pre1 ++ k :: post1 ∧
    (length post1 ≤ length post)%nat.
Proof.
  intros Hne. induction pre as [|x pre (pre1 & post1 & IH & Hl)]; simpl.
  - rewrite decide_False by done.
    exists [], (remove_first key post). split; [done |].
    apply remove_first_length_le.
  - destruct (decide (x = key)) as [->|Hx].
    + by exists pre, post.
    + exists (x :: pre1), post1. by rewrite IH.
Qed.

Lemma recent_mono k v j j' c : (j ≤ j')%nat → recent k v j c → recent k v j' c.
Proof.
  intros Hj (Hd & pre & post & Ho & Hl). split; [done |].
  exists pre, post. split; [done | lia].
Qed.

Lemma setitem_recent key value k v j c :
  consistent c → key ≠ k → (Z.of_nat j < max_size c)%Z →
  recent k v j c → recent k v (S j) (__setitem__ key value c).1.
Proof.
  intros Hc Hne Hj (Hd & pre & post & Ho & Hl).
  rewrite setitem_eq. unfold setitem_result.
  destruct (remove_first_around key k pre post Hne)
    as (pre1 & post1 & Hr & Hl1).
  pose proof (remove_first_NoDup key _ (ordered_NoDup _ Hc)) as Hnd1.
  pose proof (λ x, elem_of_remove_first key x _ (ordered_NoDup _ Hc)) as Hin1.
  rewrite Ho in *. rewrite Hr in *.
  case_bool_decide as Hlen.
  - destruct pre1 as [|f pre2]; simpl in *.
    { lia. }
    assert (f ≠ k) as Hfk.
    { intros ->. apply NoDup_cons in Hnd1 as [Hf _]. apply Hf.
      apply elem_of_app. right. by left. }
    assert (f ≠ key ∧ is_Some (dict c !! f)) as [Hfkey [vf Hvf]].
    { destruct (Hin1 f) as [[Hf1 Hf2] _]; [by left |].
      split; [done |]. apply (ordered_keys _ Hc). by rewrite Ho. }
    rewrite lookup_insert_ne, Hvf by done. unfold recent. simpl. split.
    + by rewrite lookup_delete_ne, lookup_insert_ne.
    + exists pre2, (post1 ++ [key]). rewrite <- app_assoc. split; [done |].
      rewrite length_app. simpl. lia.
  - unfold recent. simpl. split; [by rewrite lookup_insert_ne |].
    exists pre1, (post1 ++ [key]). rewrite <- app_assoc. split; [done |].
    rewrite length_app. simpl. lia.
Qed.

Lemma getitem_recent key k v j c :
  key ≠ k → recent k v j c → recent k v (S j) (__getitem__ key c).1.
Proof.
  intros Hne Hr. rewrite getitem_eq. unfold getitem_result.
  destruct (list_index key (ordered c)); [|by apply (recent_mono k v j); [lia |]].
  destruct Hr as (Hd & pre & post & Ho & Hl).
  destruct (remove_first_around key k pre post Hne)
    as (pre1 & post1 & Hr & Hl1).
  assert (recent k v (S j) (touched key c)) as Ht.
  { split; [done |]. exists pre1, (post1 ++ [key]). simpl.
    rewrite Ho, Hr, <- app_assoc. split; [done |].
    rewrite length_app. simpl. lia. }
  by destruct (dict c !! key).
Qed.

Lemma pop_recent key k v j c :
  key ≠ k → recent k v j c → recent k v (S j) (pop key c).1.
Proof.
  intros Hne Hr. rewrite pop_eq. unfold pop_result.
  destruct (list_index key (ordered c)); [|by apply (recent_mono k v j); [lia |]].
  destruct Hr as (Hd & pre & post & Ho & Hl).
  destruct (remove_first_around key k pre post Hne)
    as (pre1 & post1 & Hr & Hl1).
  destruct (dict c !! key); unfold recent; simpl.
  - split; [by rewrite lookup_delete_ne |].
    exists pre1, post1. rewrite Ho, Hr. split; [done | lia].
  - split; [done |]. exists pre1, post1. rewrite Ho, Hr. split; [done | lia].
Qed.

Lemma exec_recent x k v j c :
  consistent c → call_key x ≠ k → (Z.of_nat j < max_size c)%Z →
  recent k v j c → recent k v (S j) (exec x c).
Proof.
  intros Hc Hne Hj Hr. destruct x as [key value|key|key default|key]; simpl in *.
  - by apply setitem_recent.
  - by apply getitem_recent.
  - rewrite get_eq. unfold get_result. case_bool_decide.
    + rewrite <- getitem_eq. by apply getitem_recent.
    + destruct (is_not_None default);
        [|by apply (recent_mono k v j); [lia |]].
      pose proof (setitem_recent key default k v j c Hc Hne Hj Hr) as Hs.
      rewrite setitem_eq in Hs.
      by destruct (setitem_result key default c) as [c' [[]|e]].
  - by apply pop_recent.
Qed.

(** X10: a key that was just read or set is the last of the recency
    order.  In a consistent cache with a capacity that is not negative it
    then survives any max_size calls about other keys, whatever they are
    (set, read, get with a default, remove) and whether they return or
    raise: it is still cached, with the same value. *)
Theorem last_used_key_survives_max_size_calls c k v (l : list (call (V := V))) :
  consistent c → (0 ≤ max_size c)%Z →
  dict c !! k = Some v → last (ordered c) = Some k →
  Forall (λ x, call_key x ≠ k) l →
  (Z.of_nat (length l) ≤ max_size c)%Z →
  dict (execs l c) !! k = Some v ∧ k ∈ keys (execs l c) ∧
  __contains__ k (execs l c) = true.
Proof.
  intros Hc Hm Hd Hlast Hl Hlen.
  assert (recent k v 0 c) as Hr.
  { split; [done |]. apply last_Some in Hlast as [pre ->].
    by exists pre, []. }
  assert (consistent (execs l c) ∧ max_size (execs l c) = max_size c ∧
          recent k v (length l) (execs l c)) as (Hc' & _ & Hd' & Hk).
  { clear Hd Hlast. unfold execs.
    induction l as [|x l IH] using rev_ind; [done |].
    rewrite foldl_app, length_app in *. simpl in *.
    apply Forall_app in Hl as [Hl Hx]. rewrite Forall_singleton in Hx.
    destruct (IH Hl ltac:(lia)) as (IHc & IHs & IHr).
    split; [apply exec_consistent; [lia | done] |].
    split; [by rewrite exec_max_size |].
    replace (length l + 1)%nat with (S (length l)) by lia.
    apply exec_recent; [done | done | lia | done]. }
  destruct Hk as (pre & post & Ho & _).
  assert (k ∈ ordered (execs l c)) as Hin.
  { rewrite Ho. apply elem_of_app. right. by left. }
  split; [done |]. split; [done |].
  rewrite contains_ordered by done. by apply bool_decide_eq_true_2.
Qed.
End recency.

Lemma last_used_key_survives_max_size_calls_witness :
  let c := execs [SetItem "A" (PyObj 1%Z); SetItem "B" (PyObj 2%Z);
                  SetItem "C" (PyObj 3%Z); GetItem "A"] (init 2) in
  let l := [SetItem "D" (PyObj 4%Z); SetItem "E" (PyObj 5%Z)] in
  dict (execs l c) !! "A" = Some (PyObj 1%Z) ∧ "A" ∈ keys (execs l c) ∧
  __contains__ "A" (execs l c) = true.
Proof.
  apply (last_used_key_survives_max_size_calls
           (execs [SetItem "A" (PyObj 1%Z); SetItem "B" (PyObj 2%Z);
                   SetItem "C" (PyObj 3%Z); GetItem "A"] (init 2))
           "A" (PyObj 1%Z)
           [SetItem "D" (PyObj 4%Z); SetItem "E" (PyObj 5%Z)]).
  - apply (execs_init 2). lia.
  - vm_compute. discriminate.
  - vm_compute. reflexivity.
  - vm_compute. reflexivity.
  - repeat constructor; discriminate.
  - vm_compute. discriminate.
Defined.
End DataCacheRecency.

(** ** The cache: its printed form *)

Module DataCacheRepr.
Import DataCache DataCacheFacts DataCacheInv DataCacheValues.
Section repr.
Context {V : Type}.
Variable str_value : pyval V → string.
Variable linesep : string.
Implicit Types (c : t V) (key k : string) (out : list string).

Lemma repr_loop_spec c (ks : list string) out :
  (∀ k, k ∈ ks → is_Some (dict c !! k)) →
  ∃ values,
    Forall2 (λ k value, dict c !! k = Some value) ks values ∧
    repr_loop str_value ks out c =
      (c, Ok (out ++ zip_with (repr_line str_value) ks values)).
Proof.
  revert out. induction ks as [|k ks IH]; intros out Hks.
  - exists []. split; [constructor |]. simpl. by rewrite app_nil_r.
  - destruct (Hks k) as [value Hv]; [by left |].
    destruct (IH (out ++ [repr_line str_value k value])) as (values & Hf & Hr).
    { intros k' Hk'. apply Hks. by right. }
    exists (value :: values). split; [by constructor |].
    simpl. unfold mbind at 1. unfold M_bind, dict_getitem.
    unfold mbind at 1. unfold M_bind, gets. rewrite Hv. simpl.
    by rewrite Hr, <- app_assoc.
Qed.

(** X11: on a consistent cache __repr__ does not raise and leaves the
    cache, its recency order included, as it was; the string it returns is
    the line "{", one line per key in recency order showing the key and
    its stored value, and the line "}", joined by the line separator. *)
Theorem repr_of_consistent_cache c :
  consistent c →
  ∃ values,
    Forall2 (λ k value, dict c !! k = Some value) (keys c) values ∧
    __repr__ str_value linesep c =
      (c, Ok (String.concat linesep
                ("{" :: zip_with (repr_line str_value) (keys c) values
                 ++ ["}"]))).
Proof.
  intros Hc.
  destruct (repr_loop_spec c (ordered c) ["{"]) as (values & Hf & Hr).
  { intros k Hk. by apply (ordered_keys _ Hc). }
  exists values. split; [done |].
  unfold __repr__. unfold mbind at 1. unfold M_bind, gets.
  unfold mbind at 1. unfold M_bind. by rewrite Hr.
Qed.
End repr.

Lemma repr_of_consistent_cache_witness :
  let c := execs [SetItem "A" (PyObj 1%Z); SetItem "B" PyNone] (init 2) in
  let str_value := λ v : pyval Z, match v with PyNone => "None" | PyObj _ => "1" end in
  ∃ values,
    Forall2 (λ k value, dict c !! k = Some value) (keys c) values ∧
    __repr__ str_value "
" c =
      (c, Ok (String.concat "
"
                ("{" :: zip_with (repr_line str_value) (keys c) values
                 ++ ["}"]))).
Proof.
  intros c str_value.
  apply (repr_of_consistent_cache str_value "
" c).
  apply (execs_init 2). lia.
Defined.
End DataCacheRepr.

(** ** The plugin: more on setup and process *)

Module IntegrateExtras.
Import DataCache DataCacheFacts DataCacheInv DataCacheValues Integrate.
Import IntegrateSetup IntegrateProcess.
Section setup.
Context {geometry : Type}.
Variable load : string → geometry.
Variable str : geometry → string.
Variable path_exists : string → bool.
Variable abspath : string → string.

Abbreviation setup := (Integrate.setup load str path_exists abspath).
Implicit Types (s : state geometry) (input : job_input) (dir : string).


(** X13: when the cache holds None under the key of the poni file, setup
    raises AttributeError, from calling __deepcopy__ on None, and binds no
    integrator: self.ai is what it was. *)
Theorem setup_on_cached_None_raises s input dir :
  in_output_dir input = Some dir →
  let ponifile := default "" (in_poni_file input) in
  path_exists ponifile = true → consistent (_ais s) →
  dict (_ais s) !! str (load ponifile) = Some PyNone →
  (setup input s).2 = Raise AttributeError ∧
  ai (setup input s).1 = ai s ∧
  dict (_ais (setup input s).1) = dict (_ais s).
Proof.
  intros Hdir ponifile He Hc Hd. subst ponifile.
  unfold Integrate.setup, alloc. rewrite Hdir, He. simpl.
  rewrite get_eq. unfold get_result.
  assert (str (load (default "" (in_poni_file input))) ∈ ordered (_ais s))
    as Hin by (apply (ordered_keys _ Hc); eauto).
  rewrite bool_decide_eq_true_2 by done.
  rewrite <- getitem_eq, (getitem_present _ _ _ Hc Hd). by simpl.
Qed.
End setup.

Section process.
Context {geometry : Type}.
Variable path_exists : string → bool.
Variable destination : string → string → string.

Abbreviation process := (Integrate.process (geometry := geometry) path_exists destination).
Abbreviation frames := (Integrate.frames (geometry := geometry) path_exists destination).
Abbreviation accepted := (Integrate.accepted path_exists).
Abbreviation warning_of := (Integrate.warning_of path_exists).
Abbreviation added := (Integrate.added path_exists destination).
Implicit Types (s : state geometry).

(** X14: process does not reset output_files: run a second time on the
    same plugin it ends as it did the first time, and appends the same
    output paths and logs the same warnings once more. *)
Theorem process_twice_appends_twice s :
  let r1 := process s in
  let r2 := process r1.1 in
  let once := added (integration s) (pairs s) in
  r1.2 = once.2 ∧
  teardown r1.1 = output_files s ++ once.1.1 ∧
  _logging r1.1 = _logging s ++ once.1.2 ∧
  r2.2 = once.2 ∧
  teardown r2.1 = output_files s ++ once.1.1 ++ once.1.1 ∧
  _logging r2.1 = _logging s ++ once.1.2 ++ once.1.2.
Proof.
  cbv zeta. rewrite !process_added. simpl.
  assert (pairs
            (Integrate.mk (objects s) (_ais s) (ai s) (dest_dir s) (ntp s)
               (npt s) (unit s) (input_files s)
               (Some (default (replicate (length (input_files s)) (MInt 1))
                        (monitor_values s)))
               (output_files s ++
                  (added (integration s) (pairs s)).1.1)
               (_logging s ++ (added (integration s) (pairs s)).1.2))
          = pairs s) as -> by done.
  unfold teardown. simpl. by rewrite <- !app_assoc.
Qed.

(** X15: with no input file, or with an empty list of monitor values,
    process returns normally and produces neither an output file nor a
    warning, whether an integrator is bound or not. *)
Theorem process_without_frames s :
  input_files s = [] ∨ monitor_values s = Some [] →
  (process s).2 = Ok () ∧
  teardown (process s).1 = output_files s ∧
  _logging (process s).1 = _logging s.
Proof.
  intros H. rewrite process_frames.
  assert (pairs s = []) as ->; [|by destruct (monitor_values s)].
  unfold pairs. destruct H as [-> | ->]; [|done].
  by destruct (default _ _).
Qed.

Lemma added_raise_outputs e l : (added (Raise e) l).1.1 = [].
Proof.
  induction l as [|x l IH]; [done |]. simpl.
  destruct (accepted x); [done |]. fold added.
  by destruct (added (Raise e) l) as [[outs warns] e'].
Qed.

(** The frames of a plugin without monitor values. *)
Lemma pairs_default s :
  monitor_values s = None →
  pairs s = (λ f, (MInt 1, f)) <$> input_files s.
Proof.
  intros Hms. unfold pairs. rewrite Hms. simpl.
  generalize (input_files s). intros l.
  induction l as [|f l IH]; [done |]. simpl. by rewrite IH.
Qed.

Lemma missing_skipped (l : list string) :
  Forall (λ f, path_exists f = false) l →
  Forall (λ y, accepted y = false) ((λ f, (MInt 1, f)) <$> l) ∧
  warning_of <$> ((λ f, (MInt 1, f)) <$> l) = MissingImage <$> l.
Proof.
  intros Hl. induction Hl as [|f l Hf Hl [IH1 IH2]]; [done |]. csimpl.
  split.
  - constructor; [|done]. unfold Integrate.accepted. simpl. by rewrite Hf.
  - rewrite IH2. unfold Integrate.warning_of at 1. simpl. by rewrite Hf.
Qed.

(** X16: with monitor_values left None no frame is skipped for its
    monitor, and monitor_values is left as a list of ones, one per input
    file.  When the integration of a frame succeeds, every input file that
    exists gives one output path and every other one a warning for a
    missing image, both in input order.  When it raises, as it does on a
    plugin whose attribute npt is not bound, process adds no output
    path: it logs the missing images and returns normally when no input
    file exists, and otherwise raises at the first input file that exists,
    having logged the missing images before it. *)
Theorem process_default_monitors s :
  monitor_values s = None →
  let r := process s in
  monitor_values r.1 = Some (replicate (length (input_files s)) (MInt 1)) ∧
  (∀ dir, integration s = Ok dir →
     r.2 = Ok () ∧
     teardown r.1 =
       output_files s ++
       (destination dir <$>
          filter (λ f, path_exists f = true) (input_files s)) ∧
     _logging r.1 =
       _logging s ++
       (MissingImage <$>
          filter (λ f, path_exists f = false) (input_files s))) ∧
  (∀ e, integration s = Raise e →
     teardown r.1 = output_files s ∧
     (Forall (λ f, path_exists f = false) (input_files s) →
        r.2 = Ok () ∧
        _logging r.1 = _logging s ++ (MissingImage <$> input_files s)) ∧
     (∀ before f after,
        input_files s = before ++ f :: after →
        Forall (λ f, path_exists f = false) before →
        path_exists f = true →
        r.2 = Raise e ∧
        _logging r.1 = _logging s ++ (MissingImage <$> before))).
Proof.
  intros Hms. cbv zeta. rewrite process_added, (pairs_default s Hms).
  unfold teardown. simpl. rewrite Hms. simpl.
  split; [done |]. split.
  - intros dir ->. rewrite added_ok. simpl. split; [done |].
    generalize (input_files s). intros l.
    split; f_equal.
    + induction l as [|f l IH]; [done |]. csimpl. rewrite !filter_cons.
      case_decide as H1; case_decide as H2;
        unfold Integrate.accepted in H1; simpl in H1;
        rewrite andb_true_r in H1; try congruence.
      csimpl. by rewrite IH.
    + induction l as [|f l IH]; [done |]. csimpl. rewrite !filter_cons.
      case_decide as H1; case_decide as H2;
        unfold Integrate.accepted in H1; simpl in H1;
        rewrite andb_true_r in H1; try congruence.
      csimpl. unfold Integrate.warning_of at 1. simpl. rewrite H2.
      by rewrite IH.
  - intros e ->. rewrite added_raise_outputs, app_nil_r.
    split; [done |]. split.
    + intros Hl. destruct (missing_skipped _ Hl) as [Hs Hw].
      by rewrite (added_skip path_exists destination _ _ Hs), Hw.
    + intros before f after -> Hb Hf.
      destruct (missing_skipped _ Hb) as [Hs Hw].
      rewrite fmap_app, fmap_cons.
      rewrite (added_raise path_exists destination e _ (MInt 1, f) _ Hs).
      * by rewrite Hw.
      * unfold Integrate.accepted. simpl. by rewrite Hf.
Qed.
End process.
End IntegrateExtras.
Module IntegrateExtrasWitnesses.
Import DataCache DataCacheFacts DataCacheInv DataCacheValues Integrate.
Import IntegrateSetup IntegrateExtras.


Lemma setup_on_cached_None_raises_witness :
  let load := λ p : string, p in
  let str := λ g : string, g in
  let abspath := λ p : string, p in
  let s := cached_None in
  (Integrate.setup load str on_disk abspath a_poni s).2
    = Raise AttributeError ∧
  ai (Integrate.setup load str on_disk abspath a_poni s).1 = ai s ∧
  dict (_ais (Integrate.setup load str on_disk abspath a_poni s).1)
    = dict (_ais s).
Proof.
  intros load str abspath s.
  apply (setup_on_cached_None_raises load str on_disk abspath s a_poni "out").
  - reflexivity.
  - reflexivity.
  - apply (setitem_consistent "a.poni" PyNone (init 10)).
    + simpl. lia.
    + apply consistent_init.
  - vm_compute. reflexivity.
Defined.

Lemma process_without_frames_witness :
  let s := set_monitor_values (Some [])
             (set_input_files ["f1"; "f2"]
                (Integrate.__init__ (geometry := ()) [] (init 10))) in
  (Integrate.process on_disk dat s).2 = Ok () ∧
  teardown (Integrate.process on_disk dat s).1 = output_files s ∧
  _logging (Integrate.process on_disk dat s).1 = _logging s.
Proof.
  intros s.
  apply (process_without_frames on_disk dat s).
  right. reflexivity.
Defined.

(** The plugin after its setup, with the three images of the job: the
    integration of a frame raises. *)
Lemma process_default_monitors_witness :
  let s := three_files in
  let r := Integrate.process on_disk dat s in
  integration s = Raise AttributeError ∧
  monitor_values r.1 = Some (replicate (length (input_files s)) (MInt 1)) ∧
  (∀ dir, integration s = Ok dir →
     r.2 = Ok () ∧
     teardown r.1 =
       output_files s ++
       (dat dir <$> filter (λ f, on_disk f = true) (input_files s)) ∧
     _logging r.1 =
       _logging s ++
       (MissingImage <$> filter (λ f, on_disk f = false) (input_files s))) ∧
  (∀ e, integration s = Raise e →
     teardown r.1 = output_files s ∧
     (Forall (λ f, on_disk f = false) (input_files s) →
        r.2 = Ok () ∧
        _logging r.1 = _logging s ++ (MissingImage <$> input_files s)) ∧
     (∀ before f after,
        input_files s = before ++ f :: after →
        Forall (λ f, on_disk f = false) before →
        on_disk f = true →
        r.2 = Raise e ∧
        _logging r.1 = _logging s ++ (MissingImage <$> before))).
Proof.
  intros s. split; [reflexivity |].
  apply (process_default_monitors on_disk dat s). reflexivity.
Defined.
End IntegrateExtrasWitnesses.

(** ** Several callers: the semaphore *)

Module ConcurrentExtras.
Import Concurrent.
Section semaphore.
Context {V : Type}.
Implicit Types (c : DataCache.t V) (cfg : config V (pyval V)).
Implicit Types (th : thread V (pyval V)) (ps : list (bool * nat)).

Lemma with_sem_waits {A} (body : DataCache.M V A) : waits (with_sem body).
Proof.
  unfold with_sem. eexists _, _. split; [done |]. intros c. by eexists.
Qed.

Lemma call_thread_phase (x : DataCache.call (V := V)) :
  ∃ n, (n ≤ 4)%nat ∧ phase (call_thread x) false n.
Proof.
  destruct x as [key value|key|key default|key]; simpl.
  - exists 3%nat. split; [lia |]. apply phase_waiting.
    unfold __setitem__, with_sem. simpl. eexists _, _. split; [done |].
    intros c. simpl.
    destruct (DataCache.__setitem__ key value c).2; by eexists.
  - exists 3%nat. split; [lia |]. apply phase_waiting, with_sem_waits.
  - exists 4%nat. split; [lia |]. unfold get. apply phase_testing.
    intros c. case_bool_decide; [right; apply with_sem_waits |].
    destruct (is_not_None default); [right | left; by eexists].
    unfold __setitem__, with_sem. simpl. eexists _, _. split; [done |].
    intros c'. simpl.
    destruct (DataCache.__setitem__ key default c').2; by eexists.
  - exists 3%nat. split; [lia |]. apply phase_waiting, with_sem_waits.
Qed.

Lemma sum_list_with_insert {B} (f : B → nat) (l : list B) i x y :
  l !! i = Some x →
  (sum_list_with f (<[i := y]> l) + f x = sum_list_with f l + f y)%nat.
Proof.
  revert i. induction l as [|z l IH]; intros [|i] Hi; simplify_eq/=.
  - lia.
  - specialize (IH i Hi). lia.
Qed.

(** One step: the phases follow, the semaphore counts the holders, and
    the steps left go down. *)
Lemma step_phases i cfg cfg' ps :
  step i cfg = Some cfg' →
  Forall2 (λ th p, phase th p.1 p.2) (threads cfg) ps →
  (_sem cfg + holders ps = 1)%nat →
  ∃ ps', Forall2 (λ th p, phase th p.1 p.2) (threads cfg') ps' ∧
         (_sem cfg' + holders ps' = 1)%nat ∧
         (S (steps_left ps') ≤ steps_left ps)%nat.
Proof.
  unfold step. intros Hstep Hf Hsem.
  destruct (threads cfg !! i) as [th|] eqn:Hi; [|done].
  destruct (Forall2_lookup_l _ _ _ _ _ Hf Hi) as ([b n] & Hp & Hph).
  simpl in Hph.
  pose proof (sum_list_with_insert
                (λ p : bool * nat, if p.1 then 1 else 0) ps i (b, n)) as Hh.
  pose proof (sum_list_with_insert (λ p : bool * nat, p.2) ps i (b, n)) as Hs.
  simpl in Hh, Hs.
  destruct Hph as [r|th [r ->]|f k Hk|th (f & k & -> & Hk)|f k Hk];
    simpl in Hstep.
  - done.
  - simplify_eq. exists (<[i := (false, 0%nat)]> ps). simpl.
    specialize (Hh (false, 0%nat) Hp). specialize (Hs (false, 0%nat) Hp).
    simpl in *. split; [|unfold holders, steps_left in *; lia].
    apply Forall2_insert; [done |]. constructor.
  - simplify_eq. exists (<[i := (true, 1%nat)]> ps). simpl.
    specialize (Hh (true, 1%nat) Hp). specialize (Hs (true, 1%nat) Hp).
    simpl in *. split; [|unfold holders, steps_left in *; lia].
    apply Forall2_insert; [done |]. by apply phase_releasing.
  - destruct (_sem cfg) as [|m] eqn:Hm; [done |]. simplify_eq.
    exists (<[i := (true, 2%nat)]> ps). simpl.
    specialize (Hh (true, 2%nat) Hp). specialize (Hs (true, 2%nat) Hp).
    simpl in *. split; [|unfold holders, steps_left in *; lia].
    apply Forall2_insert; [done |]. by apply phase_inside.
  - simplify_eq. simpl.
    destruct (Hk (attrs cfg)) as [[r Hr]|Hw].
    + exists (<[i := (false, 0%nat)]> ps).
      specialize (Hh (false, 0%nat) Hp). specialize (Hs (false, 0%nat) Hp).
      simpl in *. split; [|unfold holders, steps_left in *; lia].
      apply Forall2_insert; [done |]. rewrite Hr. constructor.
    + exists (<[i := (false, 3%nat)]> ps).
      specialize (Hh (false, 3%nat) Hp). specialize (Hs (false, 3%nat) Hp).
      simpl in *. split; [|unfold holders, steps_left in *; lia].
      apply Forall2_insert; [done |]. by apply phase_waiting.
Qed.

Lemma run_phases sch cfg cfg' ps :
  run sch cfg = Some cfg' →
  Forall2 (λ th p, phase th p.1 p.2) (threads cfg) ps →
  (_sem cfg + holders ps = 1)%nat →
  ∃ ps', Forall2 (λ th p, phase th p.1 p.2) (threads cfg') ps' ∧
         (_sem cfg' + holders ps' = 1)%nat ∧
         (steps_left ps' + length sch ≤ steps_left ps)%nat.
Proof.
  revert cfg ps. induction sch as [|i sch IH]; intros cfg ps Hrun Hf Hsem.
  - simplify_eq/=. exists ps. split; [done |]. split; [done | lia].
  - simpl in Hrun. destruct (step i cfg) as [cfg1|] eqn:Hstep; [|done].
    destruct (step_phases i cfg cfg1 ps Hstep Hf Hsem) as (ps1 & Hf1 & Hs1 & Hl1).
    destruct (IH cfg1 ps1 Hrun Hf1 Hs1) as (ps' & Hf' & Hs' & Hl').
    exists ps'. split; [done |]. split; [done |]. simpl. lia.
Qed.

Lemma start_phases c (xs : list (DataCache.call (V := V))) :
  ∃ ps, Forall2 (λ th p, phase th p.1 p.2) (call_thread <$> xs) ps ∧
        holders ps = 0%nat ∧ (steps_left ps ≤ 4 * length xs)%nat.
Proof.
  induction xs as [|x xs (ps & Hf & Hh & Hl)].
  - exists []. split; [constructor |]. by split.
  - destruct (call_thread_phase x) as (n & Hn & Hph).
    exists ((false, n) :: ps). split; [by constructor |].
    unfold holders, steps_left in *. simpl. split; lia.
Qed.

(** Some thread can step unless all have returned. *)
Lemma phases_progress cfg ps :
  Forall2 (λ th p, phase th p.1 p.2) (threads cfg) ps →
  (_sem cfg + holders ps = 1)%nat →
  Exists (λ th, returned th = None) (threads cfg) →
  ∃ i, is_Some (step i cfg).
Proof.
  intros Hf Hsem Hex.
  assert ((∃ i th n, threads cfg !! i = Some th ∧ phase th true n) ∨
          holders ps = 0%nat) as [(i & th & n & Hi & Hph)|Hnone].
  { clear Hsem Hex. induction Hf as [|th [b n] ths ps Hph Hf IH].
    - by right.
    - simpl in Hph. destruct b.
      + left. by exists 0%nat, th, n.
      + destruct IH as [(i & th' & n' & Hi & Hph')|Hz].
        * left. by exists (S i), th', n'.
        * right. unfold holders in *. simpl. lia. }
  - exists i. unfold step. rewrite Hi.
    inversion Hph as [|? [r ->]|f k Hk|? (f & k & -> & Hk)|]; simplify_eq;
      by eexists.
  - assert (_sem cfg = 1%nat) as Hone by lia.
    apply Exists_exists in Hex as (th & Hin & Hret).
    apply list_elem_of_lookup in Hin as [i Hi].
    destruct (Forall2_lookup_l _ _ _ _ _ Hf Hi) as ([b n] & Hp & Hph).
    simpl in Hph. exists i. unfold step. rewrite Hi.
    destruct Hph as [r|th [r ->]|f k Hk|th (f & k & -> & Hk)|f k Hk];
      try done; try by eexists.
    rewrite Hone. by eexists.
Qed.

(** X17: threads that each make one call of the cache (set, read, get
    with a default, remove), from any cache and in any schedule that can
    run: the counter of the semaphore never exceeds one; every thread has
    returned after at most four steps, so the schedule has at most four
    steps per thread; when all threads have returned the semaphore is free
    again, also when a method raised inside its block; and as long as a
    thread has not returned, some thread can take a step. *)
Theorem cache_calls_release_the_semaphore c
    (xs : list (DataCache.call (V := V))) (sch : list nat) cfg :
  run sch (start c (call_thread <$> xs)) = Some cfg →
  (_sem cfg ≤ 1)%nat ∧ (length sch ≤ 4 * length xs)%nat ∧
  (Forall (λ th, is_Some (returned th)) (threads cfg) → _sem cfg = 1%nat) ∧
  (Exists (λ th, returned th = None) (threads cfg) →
   ∃ i, is_Some (step i cfg)).
Proof.
  intros Hrun.
  destruct (start_phases c xs) as (ps & Hf & Hh & Hl).
  destruct (run_phases sch _ cfg ps Hrun) as (ps' & Hf' & Hs' & Hl');
    [done | simpl; lia |].
  split; [lia |]. split; [lia |]. split.
  - intros Hall.
    assert (holders ps' = 0%nat) as Hz; [|lia].
    clear -Hf' Hall. induction Hf' as [|th [b n] ths ps Hph Hf IH]; [done |].
    apply Forall_cons in Hall as [[r Hr] Hall].
    unfold holders in *. simpl in *. rewrite (IH Hall).
    destruct Hph as [r'|th [r' ->]|f k Hk|th (f & k & -> & Hk)|f k Hk];
      done.
  - by apply (phases_progress cfg ps').
Qed.
End semaphore.

Lemma cache_calls_release_the_semaphore_witness :
  let c := (DataCache.__setitem__ "k" (PyObj 5%Z) (DataCache.init 10)).1 in
  let xs := [DataCache.Get "k" (PyObj 1%Z); DataCache.Pop "k";
             DataCache.GetItem "z"] in
  let sch := [0; 1; 1; 1; 0; 0; 0; 2; 2; 2]%nat in
  let cfg := default (start c (call_thread <$> xs))
               (run sch (start c (call_thread <$> xs))) in
  (_sem cfg ≤ 1)%nat ∧ (length sch ≤ 4 * length xs)%nat ∧
  (Forall (λ th, is_Some (returned th)) (threads cfg) → _sem cfg = 1%nat) ∧
  (Exists (λ th, returned th = None) (threads cfg) →
   ∃ i, is_Some (step i cfg)).
Proof.
  intros c xs sch cfg.
  apply (cache_calls_release_the_semaphore c xs sch cfg).
  vm_compute. reflexivity.
Defined.
End ConcurrentExtras.

(** ** One caller, and two callers of get *)

Module ConcurrentCalls.
Import Concurrent.
Import DataCacheFacts DataCacheInv DataCacheValues.
Section calls.
Context {V : Type}.
Implicit Types (c : DataCache.t V) (key k : string) (v : pyval V).

Lemma run_with_sem {A} (body : DataCache.M V A) c :
  run [0; 0; 0]%nat (start c [with_sem body]) =
    Some (Concurrent.mk _ (body c).1 1 [Return (body c).2]).
Proof. reflexivity. Qed.

(** X18: a caller that is alone never waits: its call runs to the end in
    at most four steps, leaves the semaphore free, changes the cache as the
    method does and returns what the method returns or raises. *)
Theorem single_caller_runs_the_method (x : DataCache.call (V := V)) c :
  ∃ n, (n ≤ 4)%nat ∧
    run (replicate n 0%nat) (start c [call_thread x]) =
      Some (Concurrent.mk _ (DataCache.exec x c) 1 [Return (call_result x c)]).
Proof.
  destruct x as [key value|key|key default|key]; simpl.
  - exists 3%nat. split; [lia |]. simpl.
    unfold start, step. simpl.
    by destruct (DataCache.__setitem__ key value c) as [c' [[]|e]].
  - exists 3%nat. split; [lia |]. apply run_with_sem.
  - unfold DataCache.get at 1 2. unfold mbind at 1 3. unfold DataCache.M_bind.
    unfold DataCache.gets. simpl.
    case_bool_decide as Hin.
    + exists 4%nat. split; [lia |]. simpl. unfold start, step. simpl.
      by rewrite bool_decide_eq_true_2 by done.
    + destruct (is_not_None default) eqn:Hd.
      * exists 4%nat. split; [lia |]. simpl. unfold start, step. simpl.
        rewrite bool_decide_eq_false_2 by done. rewrite Hd. simpl.
        unfold mbind, DataCache.M_bind.
        by destruct (DataCache.__setitem__ key default c) as [c' [[]|e]].
      * exists 1%nat. split; [lia |]. simpl. unfold start, step. simpl.
        rewrite bool_decide_eq_false_2 by done. by rewrite Hd.
  - exists 3%nat. split; [lia |]. apply run_with_sem.
Qed.

(** X19: two threads call get for the same key, which a consistent cache
    with a capacity that is not negative does not hold, each with a default
    that is not None.  When both test [key in self.ordered] before either
    inserts, both insert and each returns its own default: the cache ends
    with the second default under the key, and the first caller holds an
    object that is not cached. *)
Theorem two_gets_of_an_absent_key_both_insert c k (v1 v2 : V) :
  DataCache.consistent c → (0 ≤ DataCache.max_size c)%Z →
  k ∉ DataCache.ordered c →
  ∃ cfg,
    run [0; 1; 0; 0; 0; 1; 1; 1]%nat
      (start c [get k (PyObj v1); get k (PyObj v2)]) = Some cfg ∧
    results cfg = [Some (Ok (PyObj v1)); Some (Ok (PyObj v2))] ∧
    DataCache.dict (attrs cfg) !! k = Some (PyObj v2) ∧
    _sem cfg = 1%nat.
Proof.
  intros Hc Hm Hk.
  destruct (setitem_consistent k (PyObj v1) c Hm Hc) as [Hr1 Hc1].
  set (c1 := (DataCache.__setitem__ k (PyObj v1) c).1) in *.
  assert (DataCache.max_size c1 = DataCache.max_size c) as Hm1
    by apply setitem_max_size.
  destruct (setitem_consistent k (PyObj v2) c1 ltac:(lia) Hc1) as [Hr2 Hc2].
  destruct (setitem_stored k (PyObj v2) c1 ltac:(lia) Hc1) as [Hst _].
  eexists. split.
  - simpl. unfold start, step. simpl.
    rewrite !bool_decide_eq_false_2 by done. simpl.
    fold c1. rewrite Hr1, Hr2. reflexivity.
  - simpl. by split.
Qed.
End calls.

Lemma two_gets_of_an_absent_key_both_insert_witness :
  ∃ cfg,
    run [0; 1; 0; 0; 0; 1; 1; 1]%nat
      (start (DataCache.init 10)
         [get "k" (PyObj 1%Z); get "k" (PyObj 2%Z)]) = Some cfg ∧
    results cfg = [Some (Ok (PyObj 1%Z)); Some (Ok (PyObj 2%Z))] ∧
    DataCache.dict (attrs cfg) !! "k" = Some (PyObj 2%Z) ∧
    _sem cfg = 1%nat.
Proof.
  apply (two_gets_of_an_absent_key_both_insert (DataCache.init 10) "k" 1%Z 2%Z).
  - apply consistent_init.
  - simpl. lia.
  - apply not_elem_of_nil.
Defined.
End ConcurrentCalls.

(** ** The cache: new keys push the old ones out *)

Module DataCacheWindow.
Import DataCache DataCacheFacts DataCacheInv DataCacheValues CacheNotions.
Section window.
Context {V : Type}.
Implicit Types (c : t V) (key k : string) (value v w : pyval V).
Implicit Types (kvs : list (string * pyval V)) (o ks : list string).

Lemma window_snoc_fits {B} n (l : list B) x :
  (length (window n l) ≤ n)%nat → window n (l ++ [x]) = window n l ++ [x].
Proof.
  unfold window. rewrite length_drop, length_app. simpl. intros Hl.
  replace (length l - (n + 1))%nat with 0%nat by lia.
  by replace (length l + 1 - (n + 1))%nat with 0%nat by lia.
Qed.

Lemma window_snoc_full {B} n (l : list B) x :
  (n < length (window n l))%nat →
  ∃ first rest, window n l = first :: rest ∧ window n (l ++ [x]) = rest ++ [x].
Proof.
  unfold window. rewrite length_drop, length_app. simpl. intros Hl.
  set (d := (length l - (n + 1))%nat) in *.
  replace (length l + 1 - (n + 1))%nat with (S d) by lia.
  destruct (drop d l) as [|first rest] eqn:Hd.
  { apply (f_equal length) in Hd. rewrite length_drop in Hd. simpl in Hd. lia. }
  exists first, rest. split; [done |].
  rewrite drop_app_le by lia. f_equal.
  replace (S d) with (d + 1)%nat by lia.
  by rewrite <- drop_drop, Hd.
Qed.

Lemma inserts_window c kvs :
  consistent c → (0 ≤ max_size c)%Z →
  (Z.of_nat (length (ordered c)) ≤ max_size c + 1)%Z →
  NoDup kvs.*1 → (∀ k, k ∈ kvs.*1 → k ∉ ordered c) →
  let c' := execs (inserts kvs) c in
  consistent c' ∧ max_size c' = max_size c ∧
  ordered c' = window (Z.to_nat (max_size c)) (ordered c ++ kvs.*1).
Proof.
  intros Hc Hm Hb. cbv zeta. unfold execs, inserts.
  induction kvs as [|[k v] kvs IH] using rev_ind; intros Hnd Hnew.
  - simpl. rewrite app_nil_r. split; [done |]. split; [done |].
    unfold window. by replace (_ - _)%nat with 0%nat by lia.
  - rewrite fmap_app, foldl_app. simpl.
    rewrite fmap_app in Hnd, Hnew. simpl in Hnd, Hnew.
    apply NoDup_app in Hnd as (Hnd & Hk & _).
    destruct IH as (Hc' & Hs' & Ho'); [done | |].
    { intros k' Hk'. apply Hnew, elem_of_app. by left. }
    set (c' := foldl (λ c x, exec x c) c (_ <$> kvs)) in *.
    assert (k ∉ ordered c ++ kvs.*1) as Hknew.
    { intros [Hin|Hin]%elem_of_app.
      - apply (Hnew k); [|done]. apply elem_of_app. right. by left.
      - apply (Hk k Hin). by left. }
    assert (k ∉ ordered c') as Hkc'.
    { rewrite Ho'. intros Hin. apply Hknew.
      unfold window in Hin. by apply (subseteq_drop _ _ _ Hin). }
    split; [apply setitem_consistent; [lia | done] |].
    split; [by rewrite setitem_max_size |].
    rewrite fmap_app, app_assoc. simpl.
    destruct (decide (max_size c < Z.of_nat (length (ordered c')))%Z)
      as [Hfull|Hfits].
    + destruct (window_snoc_full (Z.to_nat (max_size c))
                  (ordered c ++ kvs.*1) k) as (f & rest & Hw & Hw').
      { rewrite <- Ho'. lia. }
      rewrite (setitem_new_key_evicts k v c' f rest); [|done|done| |lia].
      * by rewrite Hw'.
      * by rewrite Ho'.
    + rewrite (setitem_new_key_fits k v c'); [|done|lia].
      simpl. rewrite window_snoc_fits; [by rewrite Ho' |].
      rewrite <- Ho'. lia.
Qed.

(** X20: in a consistent cache that holds at most max_size + 1 keys, with
    a capacity that is not negative, after max_size + 1 insertions of
    pairwise different keys that were not cached, no key from before is
    left: keys() is the list of the inserted keys, in the order of the
    insertions. *)
Theorem new_keys_push_all_old_keys_out c kvs :
  consistent c → (0 ≤ max_size c)%Z →
  (Z.of_nat (length (ordered c)) ≤ max_size c + 1)%Z →
  NoDup kvs.*1 → (∀ k, k ∈ kvs.*1 → k ∉ ordered c) →
  Z.of_nat (length kvs) = (max_size c + 1)%Z →
  keys (execs (inserts kvs) c) = kvs.*1 ∧
  (∀ k, k ∈ keys c → __contains__ k (execs (inserts kvs) c) = false).
Proof.
  intros Hc Hm Hb Hnd Hnew Hlen.
  destruct (inserts_window c kvs Hc Hm Hb Hnd Hnew) as (Hc' & Hs' & Ho').
  assert (ordered (execs (inserts kvs) c) = kvs.*1) as Hkeys.
  { rewrite Ho'. unfold window. rewrite length_app, length_fmap.
    replace (_ - _)%nat with (length (ordered c)) by lia.
    apply drop_app_length. }
  split; [done |]. intros k Hk.
  rewrite contains_ordered by done. apply bool_decide_eq_false_2.
  rewrite Hkeys. intros Hin. by apply (Hnew k).
Qed.
End window.

Lemma new_keys_push_all_old_keys_out_witness :
  let c := execs [SetItem "A" (PyObj 1%Z); SetItem "B" (PyObj 2%Z)] (init 1) in
  let kvs := [("C", PyObj 3%Z); ("D", PyObj 4%Z)] in
  keys (execs (inserts kvs) c) = kvs.*1 ∧
  (∀ k, k ∈ keys c → __contains__ k (execs (inserts kvs) c) = false).
Proof.
  apply (new_keys_push_all_old_keys_out
           (execs [SetItem "A" (PyObj 1%Z); SetItem "B" (PyObj 2%Z)] (init 1))
           [("C", PyObj 3%Z); ("D", PyObj 4%Z)]).
  - apply (execs_init 1). lia.
  - vm_compute. discriminate.
  - vm_compute. discriminate.
  - apply (bool_decide_eq_true_1 (NoDup ["C"; "D"])). vm_compute. reflexivity.
  - assert (Forall (λ k : string, k ∉ ["A"; "B"]) ["C"; "D"]) as HF.
    { apply (bool_decide_eq_true_1 (Forall _ _)). vm_compute. reflexivity. }
    intros k Hk. exact (proj1 (Forall_forall _ _) HF k Hk).
  - reflexivity.
Defined.
End DataCacheWindow.
